(** * DialClient: the tool-calling completion loop of [task/client.py]

    A shallow embedding of the class [DialClient] (constructor,
    [get_completion], [_process_tool_calls], [_call_tool]) together with the
    fragment of Python's dynamic values the class manipulates, followed by the
    properties of the orchestration loop.

    Conventions.
    - A Python [str] is a sequence of Unicode code points ([list N]).
    - Values decoded from JSON are kept dynamically typed ([value]); every
      Python operation on them raises what CPython raises on a value of the
      wrong type.
    - [print] calls only write to standard output and are left out.
    - The HTTP transport, [json.loads] and [Message.to_dict] are external
      collaborators and are parameters of the development. *)

From Stdlib Require Import ZArith String Ascii DecimalString.
From stdpp Require Import gmap list.

#[local] Set Warnings "-register-all".
#[local] Open Scope Z_scope.

(* ================================================================== *)
(** ** Python strings *)

Abbreviation pystr := (list N).

(** A string literal of the source, as code points. *)
Definition lit (s : string) : pystr :=
  (λ a, N_of_ascii a) <$> list_ascii_of_string s.
Arguments lit s%_string : simpl never.

(** [str.isspace] on one code point (CPython's [_PyUnicode_IsWhitespace]). *)
Definition isspace (c : N) : bool :=
  ((0x09 <=? c) && (c <=? 0x0D) || (0x1C <=? c) && (c <=? 0x20)
   || (c =? 0x85) || (c =? 0xA0) || (c =? 0x1680)
   || (0x2000 <=? c) && (c <=? 0x200A)
   || (c =? 0x2028) || (c =? 0x2029) || (c =? 0x202F)
   || (c =? 0x205F) || (c =? 0x3000))%N.

Fixpoint lstrip (s : pystr) : pystr :=
  match s with
  | c :: s' => if isspace c then lstrip s' else s
  | [] => []
  end.

Definition rstrip (s : pystr) : pystr := reverse (lstrip (reverse s)).

(** [s.strip()] *)
Definition strip (s : pystr) : pystr := rstrip (lstrip s).

(** [str(n)] for an [int]. *)
Definition str_int (n : Z) : pystr := lit (NilZero.string_of_int (Z.to_int n)).

(* ================================================================== *)
(** ** Python values coming out of a JSON decoder *)

(** A [float] is seen by this module only through [bool(x)] and [str(x)]. *)
Record pyfloat := { float_is_zero : bool; float_repr : pystr }.

(** The hashable values: [None], [bool], [int], [float], [str]. *)
Inductive atom :=
| ANone
| ABool (b : bool)
| AInt (n : Z)
| AFloat (x : pyfloat)
| AStr (s : pystr).

(** [Dict] keeps the items in insertion order; the first binding of a key is
    the one a lookup sees (a decoded object has each key once). *)
Inductive value :=
| Atom (a : atom)
| List (xs : list value)
| Dict (items : list (pystr * value)).

Abbreviation VNone := (Atom ANone).
Abbreviation VStr s := (Atom (AStr s)).
Abbreviation VInt n := (Atom (AInt n)).
Abbreviation VBool b := (Atom (ABool b)).

Inductive exn :=
| ValueError (msg : pystr)
| Exception (msg : pystr)
| TypeError
| AttributeError
| KeyError (key : value)
| IndexError
| JSONDecodeError
| Foreign (tag : pystr).  (* raised inside a collaborator: a tool, the transport *)

Inductive result (A : Type) :=
| Ok (a : A)
| Raise (e : exn).
Arguments Ok {A} a.
Arguments Raise {A} e.

#[global] Instance result_ret : MRet result := λ A a, Ok a.
#[global] Instance result_bind : MBind result := λ A B k r,
  match r with
  | Ok a => k a
  | Raise e => Raise e
  end.

Fixpoint dict_lookup (key : pystr) (items : list (pystr * value)) : option value :=
  match items with
  | [] => None
  | (k, v) :: items' => if decide (k = key) then Some v else dict_lookup key items'
  end.

(** [bool(v)] *)
Definition truthy (v : value) : bool :=
  match v with
  | Atom ANone => false
  | Atom (ABool b) => b
  | Atom (AInt n) => negb (n =? 0)
  | Atom (AFloat x) => negb (float_is_zero x)
  | Atom (AStr s) => negb (bool_decide (s = []))
  | List xs => negb (bool_decide (xs = []))
  | Dict items => negb (bool_decide (items = []))
  end.

(** [v.get(key, default)]: only a [dict] has the method. *)
Definition get (v : value) (key : string) (dflt : value) : result value :=
  match v with
  | Dict items => Ok (default dflt (dict_lookup (lit key) items))
  | _ => Raise AttributeError
  end.

(** [v[0]] *)
Definition getitem0 (v : value) : result value :=
  match v with
  | List (x :: _) => Ok x
  | List [] => Raise IndexError
  | Atom (AStr (c :: _)) => Ok (VStr [c])
  | Atom (AStr []) => Raise IndexError
  | Dict _ => Raise (KeyError (VInt 0))   (* decoded objects have [str] keys *)
  | Atom _ => Raise TypeError
  end.

(** [v[key]] for a [str] key *)
Definition getitem (v : value) (key : string) : result value :=
  match v with
  | Dict items =>
      match dict_lookup (lit key) items with
      | Some x => Ok x
      | None => Raise (KeyError (VStr (lit key)))
      end
  | _ => Raise TypeError
  end.

(** The sequence a [for] loop over [v] runs through. *)
Definition iter (v : value) : result (list value) :=
  match v with
  | List xs => Ok xs
  | Atom (AStr s) => Ok ((λ c, VStr [c]) <$> s)
  | Dict items => Ok ((λ kv, VStr kv.1) <$> items)
  | Atom _ => Raise TypeError
  end.

(** [v == s] for a [str] literal [s] *)
Definition eq_str (v : value) (s : string) : bool :=
  match v with
  | Atom (AStr s') => bool_decide (s' = lit s)
  | _ => false
  end.

(** [hash(v)], needed to use [v] as a dictionary key: lists and dicts are
    unhashable. *)
Definition hashable (v : value) : result atom :=
  match v with
  | Atom a => Ok a
  | _ => Raise TypeError
  end.

(** [f"{a}"] *)
Definition format (a : atom) : pystr :=
  match a with
  | ANone => lit "None"
  | ABool true => lit "True"
  | ABool false => lit "False"
  | AInt n => str_int n
  | AFloat x => float_repr x
  | AStr s => s
  end.

(* ================================================================== *)
(** ** Data model *)

(** Modelled from the spec: the enumeration [Role] of [task/models/role.py],
    which is not among the sources; the spec lists its four members. *)
Inductive Role := SYSTEM | USER | AI | TOOL.

(** Modelled from the spec: the class [Message] of [task/models/message.py],
    which is not among the sources. The spec gives its five fields; a field
    the constructor call does not mention is [None]. The fields hold whatever
    Python value the client stores in them. *)
Record Message := {
  role : Role;
  content : value;
  tool_calls : value;
  name : value;
  tool_call_id : value
}.

Module BaseTool.
(** Modelled from the spec: the interface [BaseTool] of [task/tools/base.py],
    which is not among the sources: a [name], a [schema] (a JSON-like
    description) and [execute(arguments) -> str]. A tool object is an
    ordinary object, hence true in a condition. [execute] may raise: the
    client does not catch. *)
Record t := {
  name : pystr;
  schema : value;
  execute : value → result pystr
}.
End BaseTool.

Record DialClient := {
  __endpoint : pystr;
  __api_key : pystr;
  __tools_dict : gmap pystr BaseTool.t;
  __tools_schemas : list value
}.

(** [requests.post(url=..., headers=..., json=...)] and what the client reads
    of the answer: [status_code], [text] and the outcome of [json()]. *)
Record Request := {
  url : pystr;
  headers : list (pystr * pystr);
  json_data : value
}.

Record Response := {
  status_code : Z;
  text : pystr;
  json : result value
}.

(* ================================================================== *)
(** ** [DialClient.__init__] *)

(** [{tool.name: tool for tool in tools}]: a later tool replaces an earlier
    one of the same name. *)
Definition tools_by_name (tools : list BaseTool.t) : gmap pystr BaseTool.t :=
  foldl (λ d tool, <[BaseTool.name tool := tool]> d) ∅ tools.

(** [api_key] and [tools] may be [None]; iterating [None] raises. *)
Definition __init__ (endpoint deployment_name : pystr)
    (api_key : option pystr) (tools : option (list BaseTool.t)) : result DialClient :=
  match api_key with
  | None => Raise (ValueError (lit "API key cannot be null or empty"))
  | Some api_key =>
    if bool_decide (api_key = []) || bool_decide (strip api_key = [])
    then Raise (ValueError (lit "API key cannot be null or empty"))
    else
      let endpoint' :=
        endpoint ++ lit "/openai/deployments/" ++ deployment_name
                 ++ lit "/chat/completions" in
      match tools with
      | None => Raise TypeError
      | Some tools =>
        let by_name := tools_by_name tools in
        let schemas := BaseTool.schema <$> tools in
        Ok {| __endpoint := endpoint';
              __api_key := api_key;
              (* [... or {}] and [... or []] *)
              __tools_dict := if decide (size by_name = 0%nat) then ∅ else by_name;
              __tools_schemas := if bool_decide (schemas = []) then [] else schemas |}
      end
  end.

(* ================================================================== *)
(** ** [DialClient._call_tool] *)

Definition _call_tool (self : DialClient) (function_name arguments : value)
    : result pystr :=
  key ← hashable function_name;
  (* [self.__tools_dict.get(function_name)]: the keys are strings *)
  let tool := match key with
              | AStr s => __tools_dict self !! s
              | _ => None
              end in
  match tool with
  | Some tool => BaseTool.execute tool arguments
  | None => Ok (lit "Unknown function: " ++ format key)
  end.

(* ================================================================== *)
(** ** [DialClient._process_tool_calls] and [DialClient.get_completion] *)

(** What [get_completion] leaves behind: a value, an exception, or nothing
    yet when the recursion was cut off. *)
Inductive outcome (A : Type) :=
| Returned (a : A)
| Raised (e : exn)
| OutOfFuel.
Arguments Returned {A} a.
Arguments Raised {A} e.
Arguments OutOfFuel {A}.

Section Client.

(** [json.loads] on a [str]: [None] stands for [JSONDecodeError]. *)
Variable json_loads : pystr → option value.
(** [Message.to_dict] *)
Variable to_dict : Message → value.
(** The transport behind [requests.post]: it answers or raises, and moves on. *)
Variable Net : Type.
Variable post : Request → Net → result Response * Net.

Variable self : DialClient.

(** [json.loads(v)]: anything but a [str] is a [TypeError]. *)
Definition loads (v : value) : result value :=
  match v with
  | Atom (AStr s) =>
      match json_loads s with
      | Some x => Ok x
      | None => Raise JSONDecodeError
      end
  | _ => Raise TypeError
  end.

(** The body of the [for] loop, up to the [Message] it appends. *)
Definition process_tool_call (tool_call : value) : result Message :=
  tool_call_id ← getitem tool_call "id";
  function ← getitem tool_call "function";
  function_name ← getitem function "name";
  raw ← getitem function "arguments";
  arguments ← loads raw;
  tool_execution_result ← _call_tool self function_name arguments;
  Ok {| role := TOOL;
        name := function_name;
        tool_call_id := tool_call_id;
        content := VStr tool_execution_result;
        tool_calls := VNone |}.

(** The [for] loop, with the list [tool_messages] it appends to. *)
Fixpoint process_loop (todo : list value) (tool_messages : list Message)
    : result (list Message) :=
  match todo with
  | [] => Ok tool_messages
  | tool_call :: todo' =>
      m ← process_tool_call tool_call;
      process_loop todo' (tool_messages ++ [m])
  end.

Definition _process_tool_calls (tool_calls : value) : result (list Message) :=
  todo ← iter tool_calls;
  process_loop todo [].

(** The state [get_completion] works on: the caller's list object
    [messages], which it mutates in place, the transport, and the requests
    posted so far. *)
Record World := {
  messages : list Message;
  net : Net;
  sent : list Request
}.

Definition prog (A : Type) : Type := World → outcome A * World.

#[local] Instance prog_ret : MRet prog := λ A a w, (Returned a, w).
#[local] Instance prog_bind : MBind prog := λ A B k m w,
  match m w with
  | (Returned a, w') => k a w'
  | (Raised e, w') => (Raised e, w')
  | (OutOfFuel, w') => (OutOfFuel, w')
  end.

Definition raise {A} (e : exn) : prog A := λ w, (Raised e, w).

Definition lift {A} (r : result A) : prog A := λ w,
  match r with
  | Ok a => (Returned a, w)
  | Raise e => (Raised e, w)
  end.

Definition read_messages : prog (list Message) := λ w, (Returned (messages w), w).

(** [messages.append(m)] *)
Definition append (m : Message) : prog unit := λ w,
  (Returned (), {| messages := messages w ++ [m]; net := net w; sent := sent w |}).

(** [messages.extend(ms)] *)
Definition extend (ms : list Message) : prog unit := λ w,
  (Returned (), {| messages := messages w ++ ms; net := net w; sent := sent w |}).

Definition requests_post (request : Request) : prog Response := λ w,
  let '(r, net') := post request (net w) in
  let w' := {| messages := messages w; net := net'; sent := sent w ++ [request] |} in
  match r with
  | Ok response => (Returned response, w')
  | Raise e => (Raised e, w')
  end.

(** The request of one round, for the conversation as it stands. *)
Definition build_request (msgs : list Message) : Request :=
  {| url := __endpoint self;
     headers := [(lit "api-key", __api_key self);
                 (lit "Content-Type", lit "application/json")];
     json_data := Dict [(lit "messages", List (to_dict <$> msgs));
                        (lit "tools", List (__tools_schemas self))] |}.

(** [get_completion(messages, print_request)]. The recursion of the source
    has no bound; [fuel] counts the rounds still allowed. [print_request]
    only selects what is printed. *)
Fixpoint get_completion (fuel : nat) : prog Message :=
  match fuel with
  | O => λ w, (OutOfFuel, w)
  | S fuel' =>
    msgs ← read_messages;
    response ← requests_post (build_request msgs);
    if status_code response =? 200 then
      data ← lift (json response);
      choices ← lift (get data "choices" (List []));
      if truthy choices then
        choice ← lift (getitem0 choices);
        message_data ← lift (get choice "message" (Dict []));
        content ← lift (get message_data "content" VNone);
        tool_calls ← lift (get message_data "tool_calls" VNone);
        let ai_response :=
          {| role := AI; content := content; tool_calls := tool_calls;
             name := VNone; tool_call_id := VNone |} in
        finish_reason ← lift (get choice "finish_reason" VNone);
        if eq_str finish_reason "tool_calls" then
          _ ← append ai_response;
          tool_messages ← lift (_process_tool_calls tool_calls);
          _ ← extend tool_messages;
          get_completion fuel'
        else
          mret ai_response
      else
        raise (ValueError (lit "No Choice has been present in the response"))
    else
      raise (Exception (lit "HTTP " ++ str_int (status_code response)
                          ++ lit ": " ++ text response))
  end.

End Client.

Arguments World Net : clear implicits.
Arguments messages {Net} w.
Arguments net {Net} w.
Arguments sent {Net} w.

(* ================================================================== *)
(** ** Vocabulary of the statements *)

(** Empty or made of whitespace only. *)
Definition blank (s : pystr) : bool := forallb isspace s.

(** The value under [key] in an object, [None] when the key is absent: what
    [d.get(key)] reads. *)
Definition field (key : string) (items : list (pystr * value)) : value :=
  default VNone (dict_lookup (lit key) items).

(** [response] decodes to an object whose ["choices"] is a list starting
    with the object [choice], and [message_data] is the ["message"] object of
    that choice (no entries when the choice has no ["message"]). *)
Definition first_choice (response : Response)
    (choice message_data : list (pystr * value)) : Prop :=
  ∃ data rest,
    json response = Ok (Dict data) ∧
    dict_lookup (lit "choices") data = Some (List (Dict choice :: rest)) ∧
    default (Dict []) (dict_lookup (lit "message") choice) = Dict message_data.

(** The assistant message read off a first choice. *)
Definition ai_message (message_data : list (pystr * value)) : Message :=
  {| role := AI;
     content := field "content" message_data;
     tool_calls := field "tool_calls" message_data;
     name := VNone;
     tool_call_id := VNone |}.

(** A tool-call request as the data model has it:
    [{id, function: {name, arguments}}], the name and the arguments being
    strings. *)
Record ToolCall := {
  call_id : value;
  call_name : pystr;
  call_arguments : pystr
}.

(** The object [tool_call] carries the request [c]; it may have other
    entries (such as ["type"]). *)
Definition carries (tool_call : value) (c : ToolCall) : Prop :=
  ∃ function,
    getitem tool_call "id" = Ok (call_id c) ∧
    getitem tool_call "function" = Ok function ∧
    getitem function "name" = Ok (VStr (call_name c)) ∧
    getitem function "arguments" = Ok (VStr (call_arguments c)).

(** The TOOL message answering the request [c] with [result]. *)
Definition tool_message (c : ToolCall) (result : pystr) : Message :=
  {| role := TOOL;
     name := VStr (call_name c);
     tool_call_id := call_id c;
     content := VStr result;
     tool_calls := VNone |}.

(** Dispatching the request [c] with its parsed arguments returns [s]. *)
Definition answers (json_loads : pystr → option value) (self : DialClient)
    (c : ToolCall) (s : pystr) : Prop :=
  ∃ arguments,
    json_loads (call_arguments c) = Some arguments ∧
    _call_tool self (VStr (call_name c)) arguments = Ok s.

(** The arguments string of the request in [tool_call] is not valid JSON. *)
Definition malformed (json_loads : pystr → option value) (tool_call : value) : Prop :=
  ∃ c, carries tool_call c ∧ json_loads (call_arguments c) = None.

(** Every request of the batch has the shape of the data model. *)
Definition well_shaped (tool_calls : list value) : Prop :=
  Forall (λ tool_call, ∃ c, carries tool_call c) tool_calls.

(** The tools keep their side of the interface: [execute] catches its own
    faults and returns a string. *)
Definition honours_contract (self : DialClient) : Prop :=
  ∀ name tool arguments,
    __tools_dict self !! name = Some tool →
    ∃ s, BaseTool.execute tool arguments = Ok s.

(** The error of the constructor's credential check. *)
Definition config_error : exn :=
  ValueError (lit "API key cannot be null or empty").

(** The world once the request for the current conversation has gone out. *)
Definition posted {Net} (to_dict : Message → value) (self : DialClient)
    (w : World Net) (net' : Net) : World Net :=
  {| messages := messages w;
     net := net';
     sent := sent w ++ [build_request to_dict self (messages w)] |}.

(** The world with [ms] appended to the conversation. *)
Definition grown {Net} (w : World Net) (ms : list Message) : World Net :=
  {| messages := messages w ++ ms; net := net w; sent := sent w |}.

(** From [w] to [w'] the conversation and the log of requests only grew at
    the end, and every new request went to the client's URL. *)
Definition extends {Net} (self : DialClient) (w w' : World Net) : Prop :=
  ∃ added reqs,
    messages w' = messages w ++ added
    ∧ sent w' = sent w ++ reqs
    ∧ Forall (λ r, url r = __endpoint self) reqs.

(** The message [m] is what one pass of the loop body makes of the request
    [tool_call]: the lookups and the decoding went through, the dispatch
    returned a string, and [m] carries the id, the name and that string. *)
Definition replies (json_loads : pystr → option value) (self : DialClient)
    (tool_call : value) (m : Message) : Prop :=
  ∃ function raw arguments s,
    getitem tool_call "id" = Ok (tool_call_id m) ∧
    getitem tool_call "function" = Ok function ∧
    getitem function "name" = Ok (name m) ∧
    getitem function "arguments" = Ok raw ∧
    loads json_loads raw = Ok arguments ∧
    _call_tool self (name m) arguments = Ok s ∧
    role m = TOOL ∧ content m = VStr s ∧ tool_calls m = VNone.

(** The shape of what a call appends to a conversation: rounds, each an AI
    message followed by the replies to its tool calls, one per call and in
    their order; the last round consists of the AI message alone exactly in
    the case where processing its tool calls raised. *)
Inductive rounds (json_loads : pystr → option value) (self : DialClient)
    : list Message → Prop :=
| rounds_nil : rounds json_loads self []
| rounds_failed ai e :
    role ai = AI →
    _process_tool_calls json_loads self (tool_calls ai) = Raise e →
    rounds json_loads self [ai]
| rounds_cons ai todo tool_messages rest :
    role ai = AI →
    iter (tool_calls ai) = Ok todo →
    Forall2 (replies json_loads self) todo tool_messages →
    rounds json_loads self rest →
    rounds json_loads self (ai :: tool_messages ++ rest).

(** One round of tool use takes [w] to [w']: the answer to the request for
    the conversation of [w] has status 200 and asks for tool calls, they are
    processed, and [w'] has the AI message and the tool messages appended. *)
Definition tool_round {Net} (json_loads : pystr → option value)
    (to_dict : Message → value) (post : Request → Net → result Response * Net)
    (self : DialClient) (w w' : World Net) : Prop :=
  ∃ response net' choice message_data tool_messages,
    post (build_request to_dict self (messages w)) (net w) = (Ok response, net') ∧
    status_code response = 200 ∧
    first_choice response choice message_data ∧
    field "finish_reason" choice = VStr (lit "tool_calls") ∧
    _process_tool_calls json_loads self (field "tool_calls" message_data)
      = Ok tool_messages ∧
    w' = grown (grown (posted to_dict self w net') [ai_message message_data])
               tool_messages.

(** The answer to the request for the conversation of [w] has status 200 and
    does not ask for tool calls; [m] is its AI message and [w'] the world
    after the request. *)
Definition final_round {Net} (to_dict : Message → value)
    (post : Request → Net → result Response * Net) (self : DialClient)
    (w : World Net) (m : Message) (w' : World Net) : Prop :=
  ∃ response net' choice message_data,
    post (build_request to_dict self (messages w)) (net w) = (Ok response, net') ∧
    status_code response = 200 ∧
    first_choice response choice message_data ∧
    field "finish_reason" choice ≠ VStr (lit "tool_calls") ∧
    m = ai_message message_data ∧
    w' = posted to_dict self w net'.

(* ================================================================== *)
(** ** Concrete collaborators, for running the model *)

Module Demo.

(** A transport that plays back a fixed script of answers. *)
Definition post (_ : Request) (script : list Response)
    : result Response * list Response :=
  match script with
  | r :: rest => (Ok r, rest)
  | [] => (Raise (Foreign (lit "ConnectionError")), [])
  end.

(** A decoder that knows three documents. *)
Definition json_loads (s : pystr) : option value :=
  if bool_decide (s = lit "{}") then Some (Dict [])
  else if bool_decide (s = lit "[1, 2]") then Some (List [VInt 1; VInt 2])
  else if bool_decide (s = lit "null") then Some VNone
  else None.

Definition role_name (r : Role) : pystr :=
  match r with
  | SYSTEM => lit "system"
  | USER => lit "user"
  | AI => lit "assistant"
  | TOOL => lit "tool"
  end.

Definition to_dict (m : Message) : value :=
  Dict [(lit "role", VStr (role_name (role m))); (lit "content", content m)].

(** A tool adding up a list of integers. *)
Fixpoint total (xs : list value) : option Z :=
  match xs with
  | [] => Some 0
  | Atom (AInt n) :: xs' => (λ s, n + s) <$> total xs'
  | _ => None
  end.

Definition sum_tool : BaseTool.t :=
  {| BaseTool.name := lit "sum";
     BaseTool.schema := Dict [(lit "type", VStr (lit "function"))];
     BaseTool.execute := λ arguments,
       match arguments with
       | List xs => Ok (default (lit "error: not integers") (str_int <$> total xs))
       | _ => Ok (lit "error: a list is expected")
       end |}.

(** A tool that breaks its contract and raises. *)
Definition faulty_tool : BaseTool.t :=
  {| BaseTool.name := lit "boom";
     BaseTool.schema := Dict [];
     BaseTool.execute := λ _, Raise (Foreign (lit "RuntimeError")) |}.

Definition client : DialClient :=
  {| __endpoint := lit "https://host/openai/deployments/gpt/chat/completions";
     __api_key := lit "secret";
     __tools_dict := tools_by_name [sum_tool];
     __tools_schemas := [BaseTool.schema sum_tool] |}.

(** The same client with the faulty tool registered as well. *)
Definition careless_client : DialClient :=
  {| __endpoint := __endpoint client;
     __api_key := __api_key client;
     __tools_dict := tools_by_name [sum_tool; faulty_tool];
     __tools_schemas := [BaseTool.schema sum_tool; BaseTool.schema faulty_tool] |}.

Definition call (id : string) (name arguments : string) : value :=
  Dict [(lit "id", VStr (lit id));
        (lit "type", VStr (lit "function"));
        (lit "function", Dict [(lit "name", VStr (lit name));
                               (lit "arguments", VStr (lit arguments))])].

(** [{"choices": [{"finish_reason": ..., "message": {...}}]}] with status 200 *)
Definition answer (finish_reason : string) (message_data : list (pystr * value))
    : Response :=
  {| status_code := 200;
     text := lit "(body)";
     json := Ok (Dict [(lit "choices",
               List [Dict [(lit "finish_reason", VStr (lit finish_reason));
                           (lit "message", Dict message_data)]])]) |}.

Definition user_says (s : string) : Message :=
  {| role := USER; content := VStr (lit s); tool_calls := VNone;
     name := VNone; tool_call_id := VNone |}.

Definition world (script : list Response) : World (list Response) :=
  {| messages := [user_says "add 1 and 2"]; net := script; sent := [] |}.

(** A batch of two requests: one for [sum_tool], one for a name nobody
    registered. *)
Definition batch : list value :=
  [call "c1" "sum" "[1, 2]"; call "c2" "nope" "{}"].

Definition batch_calls : list ToolCall :=
  [{| call_id := VStr (lit "c1"); call_name := lit "sum";
      call_arguments := lit "[1, 2]" |};
   {| call_id := VStr (lit "c2"); call_name := lit "nope";
      call_arguments := lit "{}" |}].

(** A request whose arguments stop short. *)
Definition bad_call : value := call "c3" "sum" "[1, ".

Definition stop_answer : Response :=
  answer "stop" [(lit "content", VStr (lit "hello"))].

Definition tools_answer : Response :=
  answer "tool_calls" [(lit "content", VNone); (lit "tool_calls", List batch)].

Definition bad_answer : Response :=
  answer "tool_calls" [(lit "tool_calls", List (batch ++ bad_call :: []))].

Definition no_tools_answer : Response :=
  answer "tool_calls" [(lit "content", VStr (lit "wait"));
                       (lit "tool_calls", VNone)].

Definition not_found : Response :=
  {| status_code := 404; text := lit "Not Found"; json := Raise JSONDecodeError |}.

(** A second tool registered under the name of [sum_tool]. *)
Definition sum_v2 : BaseTool.t :=
  {| BaseTool.name := lit "sum";
     BaseTool.schema := Dict [(lit "version", VInt 2)];
     BaseTool.execute := λ _, Ok (lit "v2") |}.

Definition crowded_tools : list BaseTool.t := [sum_tool; sum_v2; faulty_tool].

Definition crowded_client : DialClient :=
  {| __endpoint := __endpoint client;
     __api_key := __api_key client;
     __tools_dict := tools_by_name crowded_tools;
     __tools_schemas := BaseTool.schema <$> crowded_tools |}.

(** [{"choices": []}] *)
Definition empty_answer : Response :=
  {| status_code := 200; text := lit "(body)";
     json := Ok (Dict [(lit "choices", List [])]) |}.

(** [{"choices": [{"finish_reason": "stop", "message": null}]}] *)
Definition null_message_answer : Response :=
  {| status_code := 200; text := lit "(body)";
     json := Ok (Dict [(lit "choices",
               List [Dict [(lit "finish_reason", VStr (lit "stop"));
                           (lit "message", VNone)]])]) |}.

Definition empty_tools_answer : Response :=
  answer "tool_calls" [(lit "tool_calls", List [])].

Definition run (fuel : nat) (script : list Response)
    : outcome Message * World (list Response) :=
  get_completion json_loads to_dict (list Response) post client fuel (world script).

End Demo.

(* ================================================================== *)
(** ** Whitespace, on a few code points *)

Example isspace_samples :
  isspace <$> [0x08; 0x09; 0x0D; 0x0E; 0x1B; 0x1C; 0x20; 0x21; 0x85; 0xA0;
               0x2000; 0x200A; 0x200B; 0x3000]%N
  = [false; true; true; false; false; true; true; false; true; true;
     true; true; false; true].
Proof. reflexivity. Qed.

Example strip_sample : strip (lit "  key ") = lit "key".
Proof. reflexivity. Qed.

(* ================================================================== *)
(** ** Comparing with a literal *)

Lemma eq_str_true v (s : string) : v = VStr (lit s) → eq_str v s = true.
Proof. intros ->. simpl. by apply bool_decide_eq_true_2. Qed.

Lemma eq_str_false v (s : string) : v ≠ VStr (lit s) → eq_str v s = false.
Proof.
  intros Hne. destruct v as [[| | | |s']| |]; simpl; try reflexivity.
  apply bool_decide_eq_false_2. congruence.
Qed.

(* ================================================================== *)
(** ** Stripping *)

Lemma lstrip_nil (s : pystr) : lstrip s = [] ↔ blank s = true.
Proof.
  unfold blank. induction s as [|c s IH]; simpl; [done|].
  destruct (isspace c); simpl; [exact IH | split; discriminate].
Qed.

Lemma lstrip_not_blank (s : pystr) : lstrip s ≠ [] → blank (lstrip s) = false.
Proof.
  unfold blank. induction s as [|c s IH]; simpl; [done|].
  destruct (isspace c) eqn:Hc; [exact IH|].
  intros _. simpl. by rewrite Hc.
Qed.

Lemma blank_reverse (s : pystr) : blank (reverse s) = blank s.
Proof.
  unfold blank. induction s as [|c s IH]; [done|].
  rewrite reverse_cons, forallb_app, IH. simpl.
  destruct (isspace c), (forallb isspace s); reflexivity.
Qed.

Lemma reverse_nil_iff {A} (l : list A) : reverse l = [] ↔ l = [].
Proof.
  split; [|by intros ->].
  intros H. apply (f_equal reverse) in H. by rewrite reverse_involutive in H.
Qed.

(** [s.strip() == ""] exactly when [s] is empty or whitespace only. *)
Lemma strip_nil (s : pystr) : strip s = [] ↔ blank s = true.
Proof.
  unfold strip, rstrip.
  rewrite reverse_nil_iff, lstrip_nil, blank_reverse.
  split.
  - intros H. apply lstrip_nil.
    destruct (decide (lstrip s = [])) as [|Hne]; [done|].
    apply lstrip_not_blank in Hne. congruence.
  - intros H. apply lstrip_nil in H. by rewrite H.
Qed.

(* ================================================================== *)
(** ** Construction *)

Lemma init_blank endpoint deployment_name k tools :
  blank k = true → __init__ endpoint deployment_name (Some k) tools = Raise config_error.
Proof.
  intros Hb. apply strip_nil in Hb. unfold __init__. rewrite Hb.
  rewrite (bool_decide_eq_true_2 ([] = [])) by done.
  by rewrite orb_true_r.
Qed.

Lemma init_not_blank endpoint deployment_name k tools :
  blank k = false →
  __init__ endpoint deployment_name (Some k) tools =
    match tools with
    | None => Raise TypeError
    | Some ts =>
        Ok {| __endpoint := endpoint ++ lit "/openai/deployments/"
                              ++ deployment_name ++ lit "/chat/completions";
              __api_key := k;
              __tools_dict := tools_by_name ts;
              __tools_schemas := BaseTool.schema <$> ts |}
    end.
Proof.
  intros Hb. unfold __init__.
  assert (strip k ≠ []) as Hs by (rewrite strip_nil; congruence).
  assert (k ≠ []) as Hk by (intros ->; discriminate).
  rewrite !bool_decide_eq_false_2 by done. simpl.
  destruct tools as [ts|]; [|done].
  do 2 f_equal.
  - case_decide as Hsz; [|done]. symmetry. by apply map_size_empty_iff.
  - case_bool_decide as Hnil; [|done]. by rewrite Hnil.
Qed.

(** C4. A credential that is absent, empty or whitespace only makes the
    constructor fail with the configuration error, whatever the other
    arguments; the constructor is a function of its arguments alone, so no
    request is involved. Any other credential, that is one which is not
    empty once whitespace is trimmed, never raises the configuration error,
    and with a tool list supplied the constructor succeeds and stores the
    credential as given. *)
Theorem init_credential (endpoint deployment_name k : pystr)
    (tools : option (list BaseTool.t)) :
  __init__ endpoint deployment_name None tools = Raise config_error
  ∧ (blank k = true →
       __init__ endpoint deployment_name (Some k) tools = Raise config_error)
  ∧ (blank k = false →
       ∀ msg, __init__ endpoint deployment_name (Some k) tools
                ≠ Raise (ValueError msg))
  ∧ (blank k = false →
       ∀ ts, tools = Some ts →
         ∃ self, __init__ endpoint deployment_name (Some k) tools = Ok self
                 ∧ __api_key self = k).
Proof.
  split; [done|]. split; [apply init_blank|].
  split; intros Hb; rewrite (init_not_blank _ _ _ _ Hb).
  - intros msg. by destruct tools.
  - intros ts ->. eauto.
Qed.

Lemma init_credential_witness :
  __init__ (lit "https://host") (lit "gpt") (Some (lit "  ")) (Some [])
    = Raise config_error
  ∧ (∀ msg, __init__ (lit "https://host") (lit "gpt") (Some (lit " k ")) (Some [])
              ≠ Raise (ValueError msg))
  ∧ ∃ self, __init__ (lit "https://host") (lit "gpt") (Some (lit " k ")) (Some [])
              = Ok self ∧ __api_key self = lit " k ".
Proof.
  destruct (init_credential (lit "https://host") (lit "gpt") (lit "  ") (Some []))
    as (_ & Hblank & _).
  destruct (init_credential (lit "https://host") (lit "gpt") (lit " k ") (Some []))
    as (_ & _ & Hno & Hok).
  split; [|split].
  - apply Hblank. reflexivity.
  - apply Hno. reflexivity.
  - apply (Hok eq_refl []). reflexivity.
Defined.

(** C5. With the tool list left out ([tools=None], the default), a valid
    credential gets past the check and the comprehension over [None] raises
    [TypeError]: no client is built. *)
Theorem init_tools_absent :
  __init__ (lit "https://host") (lit "gpt") (Some (lit "key")) None = Raise TypeError.
Proof. reflexivity. Qed.

(** With an empty tool list the registry and the schema list are empty
    containers. *)
Lemma init_tools_empty endpoint deployment_name k :
  blank k = false →
  ∃ self, __init__ endpoint deployment_name (Some k) (Some []) = Ok self
          ∧ __tools_dict self = ∅ ∧ __tools_schemas self = [].
Proof. intros Hb. rewrite (init_not_blank _ _ _ _ Hb). eauto. Qed.

(* ================================================================== *)
(** ** The registry and the schema list *)

Lemma tools_by_name_snoc tools tool :
  tools_by_name (tools ++ [tool])
  = <[BaseTool.name tool := tool]> (tools_by_name tools).
Proof. unfold tools_by_name. by rewrite foldl_app. Qed.

Lemma tools_by_name_lookup tools n :
  tools_by_name tools !! n = last (filter (λ t, BaseTool.name t = n) tools).
Proof.
  induction tools as [|tool tools IH] using rev_ind; [done|].
  rewrite tools_by_name_snoc, filter_app, lookup_insert.
  rewrite (filter_cons _ tool), filter_nil.
  repeat case_decide; try congruence.
  - by rewrite last_snoc.
  - by rewrite app_nil_r.
Qed.

Lemma tools_by_name_dom tools :
  dom (tools_by_name tools) = list_to_set (BaseTool.name <$> tools).
Proof.
  induction tools as [|tool tools IH] using rev_ind; [done|].
  rewrite tools_by_name_snoc, dom_insert_L, IH, fmap_app, list_to_set_app_L.
  simpl. rewrite union_empty_r_L. apply union_comm_L.
Qed.

Lemma init_fields endpoint deployment_name api_key tools self :
  __init__ endpoint deployment_name api_key (Some tools) = Ok self →
  __tools_dict self = tools_by_name tools
  ∧ __tools_schemas self = BaseTool.schema <$> tools
  ∧ api_key = Some (__api_key self).
Proof.
  intros Hinit. destruct api_key as [k|]; [|discriminate].
  destruct (blank k) eqn:Hb.
  - by rewrite init_blank in Hinit.
  - rewrite (init_not_blank _ _ _ _ Hb) in Hinit. by injection Hinit as <-.
Qed.

Lemma filter_name_nil tools n :
  filter (λ t, BaseTool.name t = n) tools = []
  ↔ Forall (λ t, BaseTool.name t ≠ n) tools.
Proof.
  induction tools as [|t tools IH]; [by split; [constructor|]|].
  rewrite filter_cons, Forall_cons. case_decide as Hn.
  - split; [discriminate|]. by intros [? _].
  - rewrite IH. tauto.
Qed.

(** Registration policy of the constructor: of several tools given under one
    name the last one is the one the registry holds, and a name is unknown
    to the registry exactly when no tool of the list bears it. *)
Theorem registry_last_wins endpoint deployment_name api_key tools self :
  __init__ endpoint deployment_name api_key (Some tools) = Ok self →
  (∀ before tool after,
     tools = before ++ tool :: after →
     Forall (λ t, BaseTool.name t ≠ BaseTool.name tool) after →
     __tools_dict self !! BaseTool.name tool = Some tool)
  ∧ (∀ n, __tools_dict self !! n = None
          ↔ Forall (λ t, BaseTool.name t ≠ n) tools).
Proof.
  intros Hinit. destruct (init_fields _ _ _ _ _ Hinit) as (-> & _ & _). split.
  - intros before tool after -> Hafter.
    rewrite tools_by_name_lookup, filter_app, filter_cons.
    case_decide; [|done].
    apply filter_name_nil in Hafter. rewrite Hafter. by rewrite last_snoc.
  - intros n. by rewrite tools_by_name_lookup, last_None, filter_name_nil.
Qed.

Lemma size_names (names : list pystr) :
  (size (list_to_set names : gset pystr) ≤ length names)%nat
  ∧ (size (list_to_set names : gset pystr) = length names ↔ NoDup names).
Proof.
  induction names as [|n names [IHle IHeq]].
  - rewrite list_to_set_nil, size_empty. simpl.
    split; [lia|]. split; [constructor|done].
  - rewrite list_to_set_cons, NoDup_cons. simpl.
    destruct (decide (n ∈ names)) as [Hin|Hin].
    + rewrite (subseteq_union_1_L {[n]} (list_to_set names))
        by (apply singleton_subseteq_l; by apply elem_of_list_to_set).
      split; [lia|]. split; [lia|]. by intros [? _].
    + rewrite size_union, size_singleton
        by (apply disjoint_singleton_l; by rewrite elem_of_list_to_set).
      split; [lia|]. rewrite <- IHeq. split; [intros; split; [done|lia] | lia].
Qed.

(** The schema list follows the tool list item by item, repeated names
    included, whereas the registry holds one tool per name: it never has
    more entries than there are tools, and has as many exactly when the
    names are pairwise distinct. *)
Theorem schemas_and_registry endpoint deployment_name api_key tools self :
  __init__ endpoint deployment_name api_key (Some tools) = Ok self →
  __tools_schemas self = BaseTool.schema <$> tools
  ∧ dom (__tools_dict self) = list_to_set (BaseTool.name <$> tools)
  ∧ (size (__tools_dict self) ≤ length tools)%nat
  ∧ (size (__tools_dict self) = length tools ↔ NoDup (BaseTool.name <$> tools)).
Proof.
  intros Hinit. destruct (init_fields _ _ _ _ _ Hinit) as (-> & -> & _).
  split; [done|]. split; [apply tools_by_name_dom|].
  rewrite <- size_dom, tools_by_name_dom.
  rewrite <- (length_fmap BaseTool.name tools).
  apply size_names.
Qed.

(* ================================================================== *)
(** ** Dispatch *)

(** C6. A name absent from the registry gives the string
    ["Unknown function: "] followed by the name, for any arguments, and no
    exception; a name in the registry gives back what the tool's [execute]
    gives on the arguments, unchanged. *)
Theorem call_tool_dispatch (self : DialClient) (function_name : pystr)
    (arguments : value) :
  (__tools_dict self !! function_name = None →
     _call_tool self (VStr function_name) arguments
       = Ok (lit "Unknown function: " ++ function_name))
  ∧
  (∀ tool, __tools_dict self !! function_name = Some tool →
     _call_tool self (VStr function_name) arguments
       = BaseTool.execute tool arguments
     ∧ ∀ s, BaseTool.execute tool arguments = Ok s →
            _call_tool self (VStr function_name) arguments = Ok s).
Proof.
  unfold _call_tool. simpl. split.
  - by intros ->.
  - intros tool ->. split; [done|]. by intros s ->.
Qed.

Lemma call_tool_dispatch_witness :
  _call_tool Demo.client (VStr (lit "nope")) (Dict [])
    = Ok (lit "Unknown function: nope")
  ∧ _call_tool Demo.client (VStr (lit "sum")) (List [VInt 1; VInt 2])
      = Ok (lit "3").
Proof.
  split.
  - apply (proj1 (call_tool_dispatch Demo.client (lit "nope") (Dict []))).
    vm_compute. reflexivity.
  - apply (proj2 (call_tool_dispatch Demo.client (lit "sum") (List [VInt 1; VInt 2]))
             Demo.sum_tool).
    + vm_compute. reflexivity.
    + vm_compute. reflexivity.
Defined.

(* ================================================================== *)
(** ** Tool-call processing *)

Section ToolCalls.

Variable json_loads : pystr → option value.
Variable self : DialClient.

#[local] Abbreviation process_tool_call := (process_tool_call json_loads self).
#[local] Abbreviation process_loop := (process_loop json_loads self).
#[local] Abbreviation _process_tool_calls := (_process_tool_calls json_loads self).

#[local] Abbreviation answers := (answers json_loads self).
#[local] Abbreviation malformed := (malformed json_loads).
#[local] Abbreviation replies := (replies json_loads self).

Lemma process_tool_call_answers tool_call c s :
  carries tool_call c → answers c s →
  process_tool_call tool_call = Ok (tool_message c s).
Proof.
  intros (function & Hid & Hf & Hn & Ha) (arguments & Hl & Hc).
  unfold process_tool_call. rewrite Hid. simpl. rewrite Hf. simpl.
  rewrite Hn. simpl. rewrite Ha. simpl. rewrite Hl. simpl. rewrite Hc.
  reflexivity.
Qed.

Lemma process_tool_call_malformed tool_call :
  malformed tool_call → process_tool_call tool_call = Raise JSONDecodeError.
Proof.
  intros (c & (function & Hid & Hf & Hn & Ha) & Hl).
  unfold process_tool_call. rewrite Hid. simpl. rewrite Hf. simpl.
  rewrite Hn. simpl. rewrite Ha. simpl. by rewrite Hl.
Qed.

(** The loop only ever adds to the end of its accumulator. *)
Lemma process_loop_acc todo acc :
  process_loop todo acc = (ms ← process_loop todo []; Ok (acc ++ ms)).
Proof.
  revert acc. induction todo as [|tool_call todo IH]; intros acc; simpl.
  - by rewrite app_nil_r.
  - destruct (process_tool_call tool_call) as [m|e]; simpl; [|done].
    rewrite (IH (acc ++ [m])), (IH [m]).
    destruct (process_loop todo []) as [ms|e]; simpl; [|done].
    by rewrite <- app_assoc.
Qed.

Lemma process_loop_app before after :
  process_loop (before ++ after) [] =
    (ms ← process_loop before []; process_loop after ms).
Proof.
  assert (∀ acc, process_loop (before ++ after) acc =
                 (ms ← process_loop before acc; process_loop after ms)) as H;
    [|apply H].
  induction before as [|tool_call before IH]; intros acc; simpl; [done|].
  destruct (process_tool_call tool_call) as [m|e]; simpl; [|done].
  apply IH.
Qed.

Lemma process_loop_answers todo calls results :
  Forall2 carries todo calls → Forall2 answers calls results →
  process_loop todo [] = Ok (zip_with tool_message calls results).
Proof.
  intros Hc. revert results.
  induction Hc as [|tool_call c todo calls Hcar _ IH]; intros results Ha.
  - by inversion Ha.
  - inversion Ha as [|? s ? results' Hs Hrest]; subst. simpl.
    rewrite (process_tool_call_answers _ _ _ Hcar Hs). simpl.
    rewrite process_loop_acc, (IH _ Hrest). reflexivity.
Qed.

(** C1. For a list of N tool-call requests whose arguments decode and whose
    dispatch returns a string, [_process_tool_calls] returns N messages; the
    i-th has role TOOL, the id and the function name of the i-th request, and
    as content the string its dispatch returned. *)
Theorem process_tool_calls_ok (tool_calls : list value) (calls : list ToolCall) :
  Forall2 carries tool_calls calls →
  Forall (λ c, ∃ s, answers c s) calls →
  ∃ tool_messages,
    _process_tool_calls (List tool_calls) = Ok tool_messages
    ∧ length tool_messages = length tool_calls
    ∧ ∀ i c, calls !! i = Some c →
        ∃ s, answers c s ∧ tool_messages !! i = Some (tool_message c s).
Proof.
  intros Hc Ha.
  assert (∃ results, Forall2 answers calls results) as [results Hr].
  { clear Hc. induction Ha as [|c calls [s Hs] _ [results IH]].
    - exists []. constructor.
    - exists (s :: results). by constructor. }
  exists (zip_with tool_message calls results). split; [|split].
  - unfold _process_tool_calls. simpl. by apply process_loop_answers.
  - rewrite length_zip_with.
    apply Forall2_length in Hc, Hr. lia.
  - intros i c Hi.
    destruct (Forall2_lookup_l _ _ _ _ _ Hr Hi) as (s & Hs & Hcs).
    exists s. split; [done|].
    rewrite lookup_zip_with, Hi. simpl. by rewrite Hs.
Qed.

Lemma carries_fun tool_call c c' :
  carries tool_call c → carries tool_call c' → c = c'.
Proof.
  intros (f & Hid & Hf & Hn & Ha) (f' & Hid' & Hf' & Hn' & Ha').
  destruct c, c'; simpl in *. congruence.
Qed.

Lemma process_tool_call_inv tool_call c m :
  carries tool_call c → process_tool_call tool_call = Ok m →
  ∃ s, answers c s ∧ m = tool_message c s.
Proof.
  intros Hcar Hm.
  destruct (json_loads (call_arguments c)) as [arguments|] eqn:Hl.
  - destruct (_call_tool self (VStr (call_name c)) arguments) as [s|e] eqn:Hc.
    + exists s. split; [by exists arguments|].
      rewrite (process_tool_call_answers tool_call c s) in Hm;
        [congruence | done | by exists arguments].
    + destruct Hcar as (f & Hid & Hf & Hn & Ha).
      unfold process_tool_call in Hm. rewrite Hid in Hm. simpl in Hm.
      rewrite Hf in Hm. simpl in Hm. rewrite Hn in Hm. simpl in Hm.
      rewrite Ha in Hm. simpl in Hm. rewrite Hl in Hm. simpl in Hm.
      rewrite Hc in Hm. discriminate.
  - rewrite process_tool_call_malformed in Hm; [discriminate|by exists c].
Qed.

Lemma process_loop_inv todo calls ms :
  Forall2 carries todo calls → process_loop todo [] = Ok ms →
  ∃ results, Forall2 answers calls results
             ∧ ms = zip_with tool_message calls results.
Proof.
  intros Hc. revert ms.
  induction Hc as [|tool_call c todo calls Hcar _ IH]; intros ms Hms.
  - exists []. split; [constructor|]. simpl in *. congruence.
  - simpl in Hms.
    destruct (process_tool_call tool_call) as [m|e] eqn:Hm; [|discriminate].
    simpl in Hms. rewrite process_loop_acc in Hms.
    destruct (process_loop todo []) as [ms'|e] eqn:Hrest; [|discriminate].
    simpl in Hms.
    destruct (process_tool_call_inv _ _ _ Hcar Hm) as (s & Hs & ->).
    destruct (IH _ eq_refl) as (results & Hr & ->).
    exists (s :: results). split; [by constructor|]. simpl. congruence.
Qed.

(** C7, the batch alone: a request with undecodable arguments makes the
    whole batch raise; when the requests in front of it went through, the
    exception is the decoder's. *)
Lemma process_tool_calls_raises before bad after :
  malformed bad →
  ∃ e, _process_tool_calls (List (before ++ bad :: after)) = Raise e
       ∧ ∀ done, _process_tool_calls (List before) = Ok done → e = JSONDecodeError.
Proof.
  intros Hbad. unfold _process_tool_calls. simpl.
  rewrite process_loop_app.
  destruct (process_loop before []) as [ms|e]; simpl.
  - rewrite (process_tool_call_malformed _ Hbad). simpl. eauto.
  - exists e. split; [done|]. intros done. discriminate.
Qed.

Lemma call_tool_total function_name arguments :
  honours_contract self →
  ∃ s, _call_tool self (VStr function_name) arguments = Ok s.
Proof.
  intros Hc. unfold _call_tool. simpl.
  destruct (__tools_dict self !! function_name) as [tool|] eqn:Ht; [|eauto].
  apply (Hc _ _ arguments Ht).
Qed.

(** With well-shaped requests and tools that return strings, the only thing
    that can stop the loop is the decoder. *)
Lemma process_loop_decode_error tool_calls bad :
  bad ∈ tool_calls → malformed bad →
  well_shaped tool_calls → honours_contract self →
  process_loop tool_calls [] = Raise JSONDecodeError.
Proof.
  intros Hin Hbad Hshape Hcontract.
  induction Hshape as [|tool_call tool_calls [c Hcar] _ IH];
    [by apply elem_of_nil in Hin|].
  simpl. destruct (json_loads (call_arguments c)) as [arguments|] eqn:Hl.
  - destruct (call_tool_total (call_name c) arguments Hcontract) as [s Hs].
    rewrite (process_tool_call_answers tool_call c s Hcar)
      by (by exists arguments).
    simpl. rewrite process_loop_acc, IH; [done|].
    apply elem_of_cons in Hin as [->|Hin]; [|done].
    destruct Hbad as (c' & Hcar' & Hl').
    rewrite (carries_fun _ _ _ Hcar Hcar') in Hl. congruence.
  - rewrite process_tool_call_malformed; [done|by exists c].
Qed.

Lemma process_tool_call_replies tool_call m :
  process_tool_call tool_call = Ok m ↔ replies tool_call m.
Proof.
  unfold process_tool_call. split.
  - intros Hm.
    destruct (getitem tool_call "id") as [id|] eqn:Hid; [|discriminate].
    simpl in Hm.
    destruct (getitem tool_call "function") as [function|] eqn:Hf; [|discriminate].
    simpl in Hm.
    destruct (getitem function "name") as [nm|] eqn:Hn; [|discriminate].
    simpl in Hm.
    destruct (getitem function "arguments") as [raw|] eqn:Ha; [|discriminate].
    simpl in Hm.
    destruct (loads json_loads raw) as [arguments|] eqn:Hl; [|discriminate].
    simpl in Hm.
    destruct (_call_tool self nm arguments) as [s|] eqn:Hc; [|discriminate].
    simpl in Hm. injection Hm as <-.
    exists function, raw, arguments, s. by simpl.
  - intros (function & raw & arguments & s & Hid & Hf & Hn & Ha & Hl & Hc & Hr & Hct & Htc).
    rewrite Hid. simpl. rewrite Hf. simpl. rewrite Hn. simpl.
    rewrite Ha. simpl. rewrite Hl. simpl. rewrite Hc. simpl.
    destruct m; simpl in *. by subst.
Qed.

Lemma process_loop_replies todo ms :
  process_loop todo [] = Ok ms ↔ Forall2 replies todo ms.
Proof.
  revert ms. induction todo as [|tool_call todo IH]; intros ms; simpl.
  - split; [intros [= <-]; constructor | by inversion 1].
  - destruct (process_tool_call tool_call) as [m|e] eqn:Hm; simpl.
    + rewrite process_loop_acc.
      destruct (process_loop todo []) as [ms'|e] eqn:Hrest; simpl.
      * split.
        -- intros [= <-]. constructor; [by apply process_tool_call_replies|].
           by apply IH.
        -- inversion 1 as [|? m' ? ms'' Hr Hrest']; subst.
           apply process_tool_call_replies in Hr. apply IH in Hrest'.
           congruence.
      * split; [discriminate|].
        inversion 1 as [|? m' ? ms'' Hr Hrest']; subst.
        apply IH in Hrest'. discriminate.
    + split; [discriminate|].
      inversion 1 as [|? m' ? ms'' Hr Hrest']; subst.
      apply process_tool_call_replies in Hr. congruence.
Qed.

Lemma process_tool_calls_iter (tool_calls : value) (ms : list Message) :
  _process_tool_calls tool_calls = Ok ms →
  ∃ todo, iter tool_calls = Ok todo ∧ Forall2 replies todo ms.
Proof.
  unfold _process_tool_calls.
  destruct (iter tool_calls) as [todo|e]; simpl; [|discriminate].
  intros Hms. exists todo. split; [done|]. by apply process_loop_replies.
Qed.

Lemma rounds_correlated added j m :
  rounds json_loads self added →
  added !! j = Some m → role m = TOOL →
  ∃ i ai todo tool_call,
    (i < j)%nat ∧ added !! i = Some ai ∧ role ai = AI
    ∧ iter (tool_calls ai) = Ok todo ∧ tool_call ∈ todo
    ∧ getitem tool_call "id" = Ok (tool_call_id m).
Proof.
  intros Hr. revert j.
  induction Hr as [|ai e Hai _|ai todo tms rest Hai Hiter Hrep _ IH];
    intros j Hj Hm.
  - done.
  - destruct j; simplify_eq/=. congruence.
  - destruct j as [|j]; simplify_eq/=; [congruence|].
    apply lookup_app_Some in Hj as [Hj|[Hlen Hj]].
    + destruct (Forall2_lookup_r _ _ _ _ _ Hrep Hj) as (tc & Htc & Hreply).
      exists 0%nat, ai, todo, tc. split_and!; [lia|done..| |].
      * by eapply list_elem_of_lookup_2.
      * by destruct Hreply as (? & ? & ? & ? & ? & _).
    + destruct (IH _ Hj Hm) as (i & ai' & todo' & tc & Hi & Hai' & Hrole & Hit & Hin & Hid).
      exists (S (length tms + i)), ai', todo', tc.
      split_and!; [lia| |done..].
      simpl. rewrite lookup_app_r by lia.
      by replace (length tms + i - length tms)%nat with i by lia.
Qed.

Lemma rounds_roles added :
  rounds json_loads self added →
  Forall (λ m, role m = AI ∨ role m = TOOL) added.
Proof.
  induction 1 as [|ai e Hai _|ai todo tms rest Hai Hiter Hrep _ IH].
  - constructor.
  - constructor; [by left|constructor].
  - constructor; [by left|]. apply Forall_app. split; [|done].
    clear -Hrep. induction Hrep as [|tc m ? ? Hr _ IH']; constructor; [|done].
    right. by destruct Hr as (? & ? & ? & ? & ? & ? & ? & ? & ? & ? & ? & _).
Qed.

(** [_process_tool_calls] returns a list exactly when its input can be
    iterated and every element passes the loop body; the list then has one
    message per element, and the message at each position is the reply to
    the element at that position. *)
Theorem process_tool_calls_replies (tool_calls : value) (ms : list Message) :
  _process_tool_calls tool_calls = Ok ms
  ↔ ∃ todo, iter tool_calls = Ok todo
            ∧ length ms = length todo
            ∧ Forall2 replies todo ms.
Proof.
  unfold _process_tool_calls.
  destruct (iter tool_calls) as [todo|e]; simpl.
  - rewrite process_loop_replies. split.
    + intros Hr. exists todo. split_and!; [done| |done].
      symmetry. by eapply Forall2_length.
    + by intros (todo' & [= <-] & _ & Hr).
  - split; [discriminate|]. by intros (todo' & [=] & _).
Qed.

(** Processing a batch made of two parts is processing the first part and
    then the second: the messages are those of the first part followed by
    those of the second, and when the first part raises the second is never
    started. *)
Theorem process_tool_calls_app (before after : list value) :
  _process_tool_calls (List (before ++ after))
  = (ms1 ← _process_tool_calls (List before);
     ms2 ← _process_tool_calls (List after);
     Ok (ms1 ++ ms2)).
Proof.
  unfold _process_tool_calls. simpl. rewrite process_loop_app.
  destruct (process_loop before []) as [ms1|e]; simpl; [|done].
  apply process_loop_acc.
Qed.

Lemma process_loop_contract tool_calls :
  well_shaped tool_calls → honours_contract self →
  ((∃ ms, process_loop tool_calls [] = Ok ms)
   ∨ process_loop tool_calls [] = Raise JSONDecodeError)
  ∧ (process_loop tool_calls [] = Raise JSONDecodeError
     ↔ ∃ bad, bad ∈ tool_calls ∧ malformed bad).
Proof.
  intros Hshape Hcontract. split.
  - induction Hshape as [|tool_call tool_calls [c Hcar] _ IH];
      [left; by exists []|].
    simpl. destruct (json_loads (call_arguments c)) as [arguments|] eqn:Hl.
    + destruct (call_tool_total (call_name c) arguments Hcontract) as [s Hs].
      rewrite (process_tool_call_answers tool_call c s Hcar)
        by (by exists arguments).
      simpl. rewrite process_loop_acc.
      destruct IH as [[ms ->]| ->]; simpl; eauto.
    + right. rewrite process_tool_call_malformed; [done|by exists c].
  - split.
    + intros Hraise.
      induction Hshape as [|tool_call tool_calls [c Hcar] _ IH];
        [discriminate|].
      simpl in Hraise.
      destruct (json_loads (call_arguments c)) as [arguments|] eqn:Hl.
      * destruct (call_tool_total (call_name c) arguments Hcontract) as [s Hs].
        rewrite (process_tool_call_answers tool_call c s Hcar) in Hraise
          by (by exists arguments).
        simpl in Hraise. rewrite process_loop_acc in Hraise.
        destruct (process_loop tool_calls []) as [ms|e]; [discriminate|].
        simpl in Hraise. destruct (IH Hraise) as (bad & Hin & Hbad).
        exists bad. split; [by apply list_elem_of_further|done].
      * exists tool_call. split; [apply list_elem_of_here|by exists c].
    + intros (bad & Hin & Hbad). by eapply process_loop_decode_error.
Qed.

(** With requests of the data model's shape and tools that return strings,
    a batch either yields its messages or stops with the decoder's error,
    and it stops exactly when one of its arguments strings does not
    decode. *)
Theorem batch_fails_iff_undecodable (tool_calls : list value) :
  well_shaped tool_calls → honours_contract self →
  ((∃ ms, _process_tool_calls (List tool_calls) = Ok ms)
   ∨ _process_tool_calls (List tool_calls) = Raise JSONDecodeError)
  ∧ (_process_tool_calls (List tool_calls) = Raise JSONDecodeError
     ↔ ∃ bad, bad ∈ tool_calls ∧ malformed bad).
Proof. intros Hshape Hcontract. by apply process_loop_contract. Qed.

End ToolCalls.

(* ================================================================== *)
(** ** The completion loop *)

Section Loop.

Variable json_loads : pystr → option value.
Variable to_dict : Message → value.
Variable Net : Type.
Variable post : Request → Net → result Response * Net.
Variable self : DialClient.

#[local] Abbreviation get_completion :=
  (get_completion json_loads to_dict Net post self).
#[local] Abbreviation build_request := (build_request to_dict self).
#[local] Abbreviation _process_tool_calls := (_process_tool_calls json_loads self).
#[local] Abbreviation posted := (posted to_dict self).
#[local] Abbreviation extends := (extends self).

Lemma extends_refl (w : World Net) : extends w w.
Proof. exists [], []. by rewrite !app_nil_r. Qed.

Lemma extends_trans (w1 w2 w3 : World Net) :
  extends w1 w2 → extends w2 w3 → extends w1 w3.
Proof.
  intros (a1 & r1 & Hm1 & Hs1 & Hu1) (a2 & r2 & Hm2 & Hs2 & Hu2).
  exists (a1 ++ a2), (r1 ++ r2).
  rewrite Hm2, Hm1, Hs2, Hs1, !app_assoc. split_and!; [done..|].
  by apply Forall_app.
Qed.

Lemma extends_posted (w : World Net) net' : extends w (posted w net').
Proof.
  exists [], [build_request (messages w)]. simpl. rewrite app_nil_r.
  split_and!; [done..|]. by constructor.
Qed.

Lemma extends_grown (w : World Net) ms : extends w (grown w ms).
Proof. exists ms, []. simpl. by rewrite app_nil_r. Qed.

Lemma get_completion_post_raises fuel (w : World Net) e net' :
  post (build_request (messages w)) (net w) = (Raise e, net') →
  get_completion (S fuel) w = (Raised e, posted w net').
Proof.
  intros Hp. simpl. unfold mbind, prog_bind, read_messages, requests_post.
  simpl. by rewrite Hp.
Qed.

Lemma get_completion_not_200 fuel (w : World Net) response net' :
  post (build_request (messages w)) (net w) = (Ok response, net') →
  status_code response ≠ 200 →
  get_completion (S fuel) w =
    (Raised (Exception (lit "HTTP " ++ str_int (status_code response)
                          ++ lit ": " ++ text response)),
     posted w net').
Proof.
  intros Hp Hs. simpl. unfold mbind, prog_bind, read_messages, requests_post.
  simpl. rewrite Hp.
  apply Z.eqb_neq in Hs. by rewrite Hs.
Qed.

Lemma get_completion_200 fuel (w : World Net) response net' choice message_data :
  post (build_request (messages w)) (net w) = (Ok response, net') →
  status_code response = 200 →
  first_choice response choice message_data →
  get_completion (S fuel) w =
    if eq_str (field "finish_reason" choice) "tool_calls" then
      match _process_tool_calls (field "tool_calls" message_data) with
      | Ok tool_messages =>
          get_completion fuel
            (grown (grown (posted w net') [ai_message message_data]) tool_messages)
      | Raise e => (Raised e, grown (posted w net') [ai_message message_data])
      end
    else (Returned (ai_message message_data), posted w net').
Proof.
  intros Hp Hs (data & rest & Hj & Hc & Hm).
  unfold field, ai_message, grown, posted.
  cbn [get_completion]. unfold mbind, prog_bind, read_messages, requests_post.
  cbn beta iota. rewrite Hp, Hs, Hj. simpl. rewrite Hc. simpl.
  destruct (dict_lookup (lit "message") choice) as [m|];
    simpl in Hm; simplify_eq; simpl;
    (destruct (eq_str _ _); [|reflexivity]);
    unfold lift; simpl;
    first [reflexivity
          | by destruct (_process_tool_calls _)].
Qed.

(** Whatever happens in a call, and however far it gets, the conversation
    and the request log of the caller are only ever extended at the end. *)
Lemma get_completion_extends fuel (w : World Net) :
  extends w (get_completion fuel w).2.
Proof.
  revert w. induction fuel as [|fuel IH]; intros w; [apply extends_refl|].
  cbn [get_completion]. unfold mbind, prog_bind, read_messages, requests_post.
  cbn beta iota.
  destruct (post (build_request (messages w)) (net w)) as [[response|e] net'].
  2: apply (extends_posted w net').
  change {| messages := messages w; net := net';
            sent := sent w ++ [build_request (messages w)] |}
    with (posted w net').
  pose proof (extends_posted w net') as Hposted.
  repeat first
    [ assumption
    | match goal with
      | |- context [lift _ ?r] => destruct r; unfold lift at 1; cbn beta iota
      | |- context [if ?b then _ else _] => destruct b
      end ].
  - eapply extends_trans; [|apply IH].
    eapply extends_trans; [exact Hposted|].
    eapply extends_trans; apply extends_grown.
  - eapply extends_trans; [exact Hposted|]. apply extends_grown.
Qed.

(** C2. When the answer has status 200 and the finish reason of its first
    choice is not ["tool_calls"], the call returns an AI message whose content
    and tool calls are the ["content"] and ["tool_calls"] entries of the
    choice's message ([None] for an absent entry); the conversation is left
    as it was and exactly one request has gone out. *)
Theorem get_completion_final fuel (w : World Net) response net' choice message_data :
  post (build_request (messages w)) (net w) = (Ok response, net') →
  status_code response = 200 →
  first_choice response choice message_data →
  field "finish_reason" choice ≠ VStr (lit "tool_calls") →
  ∃ m w',
    get_completion (S fuel) w = (Returned m, w')
    ∧ role m = AI
    ∧ content m = field "content" message_data
    ∧ tool_calls m = field "tool_calls" message_data
    ∧ messages w' = messages w
    ∧ sent w' = sent w ++ [build_request (messages w)]
    ∧ net w' = net'.
Proof.
  intros Hp Hs Hfc Hfr.
  rewrite (get_completion_200 _ _ _ _ _ _ Hp Hs Hfc), (eq_str_false _ _ Hfr).
  by exists (ai_message message_data), (posted w net').
Qed.

(** C3. When the answer has a status other than 200 the call raises an
    exception whose message is ["HTTP "], the status code, [": "] and the
    body text, and the conversation is what it was before the call. *)
Theorem get_completion_http_error fuel (w : World Net) response net' :
  post (build_request (messages w)) (net w) = (Ok response, net') →
  status_code response ≠ 200 →
  ∃ w',
    get_completion (S fuel) w =
      (Raised (Exception (lit "HTTP " ++ str_int (status_code response)
                            ++ lit ": " ++ text response)), w')
    ∧ messages w' = messages w.
Proof.
  intros Hp Hs. rewrite (get_completion_not_200 _ _ _ _ Hp Hs).
  by exists (posted w net').
Qed.

(** C7. A batch holding a request whose arguments string does not decode
    never yields a list of messages: processing raises, and a
    [get_completion] that received the batch ends with that same exception
    instead of a message. The exception is the decoder's whenever the batch
    is made of well-shaped requests and the tools return strings as their
    interface demands. *)
Theorem malformed_arguments_fatal fuel (w : World Net) response net'
    choice message_data tool_calls bad :
  bad ∈ tool_calls →
  malformed json_loads bad →
  ∃ e,
    _process_tool_calls (List tool_calls) = Raise e
    ∧ (well_shaped tool_calls → honours_contract self → e = JSONDecodeError)
    ∧ (post (build_request (messages w)) (net w) = (Ok response, net') →
       status_code response = 200 →
       first_choice response choice message_data →
       field "finish_reason" choice = VStr (lit "tool_calls") →
       field "tool_calls" message_data = List tool_calls →
       (get_completion (S fuel) w).1 = Raised e).
Proof.
  intros Hin Hbad.
  destruct (list_elem_of_split _ _ Hin) as (before & after & ->).
  destruct (process_tool_calls_raises json_loads self before bad after Hbad)
    as (e & He & _).
  exists e. split_and!; [done| |].
  - intros Hshape Hcontract.
    unfold _process_tool_calls in He. simpl in He.
    rewrite (process_loop_decode_error json_loads self _ bad) in He;
      [congruence | done..].
  - intros Hp Hs Hfc Hfr Htc.
    rewrite (get_completion_200 _ _ _ _ _ _ Hp Hs Hfc), (eq_str_true _ _ Hfr).
    by rewrite Htc, He.
Qed.

(** C8. However a call ends, the conversation it leaves is the one it was
    given followed by added messages. When the answer asks for tool calls
    and they are processed, what follows the original conversation is the AI
    message, then the TOOL messages, one per request and in the order of the
    requests, then whatever later rounds add. *)
Theorem get_completion_appends fuel (w : World Net) :
  (∃ added, messages (get_completion fuel w).2 = messages w ++ added)
  ∧ ∀ response net' choice message_data tool_messages,
      post (build_request (messages w)) (net w) = (Ok response, net') →
      status_code response = 200 →
      first_choice response choice message_data →
      field "finish_reason" choice = VStr (lit "tool_calls") →
      _process_tool_calls (field "tool_calls" message_data) = Ok tool_messages →
      (∃ later,
         messages (get_completion (S fuel) w).2 =
           messages w ++ [ai_message message_data] ++ tool_messages ++ later)
      ∧ ∀ tool_calls calls,
          field "tool_calls" message_data = List tool_calls →
          Forall2 carries tool_calls calls →
          ∃ results,
            Forall2 (answers json_loads self) calls results
            ∧ tool_messages = zip_with tool_message calls results.
Proof.
  split.
  - destruct (get_completion_extends fuel w) as (added & _ & Hm & _). eauto.
  - intros response net' choice message_data tool_messages Hp Hs Hfc Hfr Htm.
    split.
    + rewrite (get_completion_200 _ _ _ _ _ _ Hp Hs Hfc), (eq_str_true _ _ Hfr), Htm.
      destruct (get_completion_extends fuel
                  (grown (grown (posted w net') [ai_message message_data])
                         tool_messages)) as (later & _ & Hm & _).
      exists later. rewrite Hm. simpl. by rewrite <- !app_assoc.
    + intros tool_calls calls Htc Hcar. rewrite Htc in Htm.
      by apply (process_loop_inv json_loads self tool_calls).
Qed.

(** C9. The URL stored by the constructor is the endpoint, then
    [/openai/deployments/], the deployment name and [/chat/completions], and
    every request a call sends goes to that URL. *)
Theorem request_url endpoint deployment_name api_key tools fuel (w : World Net) :
  __init__ endpoint deployment_name api_key tools = Ok self →
  __endpoint self = endpoint ++ lit "/openai/deployments/" ++ deployment_name
                             ++ lit "/chat/completions"
  ∧ ∃ reqs,
      sent (get_completion fuel w).2 = sent w ++ reqs
      ∧ Forall (λ r, url r = endpoint ++ lit "/openai/deployments/"
                               ++ deployment_name ++ lit "/chat/completions") reqs.
Proof.
  intros Hinit.
  assert (__endpoint self = endpoint ++ lit "/openai/deployments/"
                              ++ deployment_name ++ lit "/chat/completions") as Hu.
  { unfold __init__ in Hinit. destruct api_key as [k|]; [|discriminate].
    destruct (_ || _); [discriminate|]. destruct tools; [|discriminate].
    injection Hinit as <-. reflexivity. }
  split; [exact Hu|].
  destruct (get_completion_extends fuel w) as (_ & reqs & _ & Hsent & Hurl).
  exists reqs. by rewrite <- Hu.
Qed.

(** C10. When the answer has status 200, the finish reason ["tool_calls"]
    and a message without tool calls (no entry, or [null]), the call raises
    [TypeError] and returns no message; the AI message is by then the last
    element of the conversation. *)
Theorem tool_calls_missing fuel (w : World Net) response net' choice message_data :
  post (build_request (messages w)) (net w) = (Ok response, net') →
  status_code response = 200 →
  first_choice response choice message_data →
  field "finish_reason" choice = VStr (lit "tool_calls") →
  field "tool_calls" message_data = VNone →
  ∃ w',
    get_completion (S fuel) w = (Raised TypeError, w')
    ∧ messages w' = messages w ++ [ai_message message_data].
Proof.
  intros Hp Hs Hfc Hfr Htc.
  rewrite (get_completion_200 _ _ _ _ _ _ Hp Hs Hfc), (eq_str_true _ _ Hfr), Htc.
  simpl. eauto.
Qed.

(** One step of the loop, whatever the answer: it raises with the
    conversation untouched, or returns an AI message with the conversation
    untouched, or appends an AI message and raises while processing its tool
    calls, or appends an AI message and its tool messages and starts over. *)
Lemma get_completion_step fuel (w : World Net) :
  ∃ net',
    (post (build_request (messages w)) (net w)).2 = net'
    ∧ ((∃ e, get_completion (S fuel) w = (Raised e, posted w net'))
       ∨ (∃ m, role m = AI
               ∧ get_completion (S fuel) w = (Returned m, posted w net'))
       ∨ (∃ ai e, role ai = AI
                  ∧ _process_tool_calls (tool_calls ai) = Raise e
                  ∧ get_completion (S fuel) w
                    = (Raised e, grown (posted w net') [ai]))
       ∨ (∃ ai tool_messages,
            role ai = AI
            ∧ _process_tool_calls (tool_calls ai) = Ok tool_messages
            ∧ get_completion (S fuel) w
              = get_completion fuel
                  (grown (grown (posted w net') [ai]) tool_messages))).
Proof.
  cbn [get_completion]. unfold mbind, prog_bind, read_messages, requests_post.
  cbn beta iota.
  destruct (post (build_request (messages w)) (net w)) as [[response|e] net'].
  2: { exists net'. split; [done|]. left. by exists e. }
  exists net'. split; [done|].
  change {| messages := messages w; net := net';
            sent := sent w ++ [build_request (messages w)] |}
    with (posted w net').
  unfold lift, raise, append, extend, mret, prog_ret.
  repeat (cbn beta iota zeta;
          match goal with
          | |- context [match ?r with Ok _ => _ | Raise _ => _ end] =>
              destruct r eqn:?
          | |- context [if ?b then _ else _] => destruct b eqn:?
          end).
  all: cbn beta iota zeta.
  all: first
    [ by left; eexists
    | right; left; eexists; (split; [|reflexivity]); reflexivity
    | right; right; left; do 2 eexists; (split; [|split]);
        [ | | reflexivity ]; [reflexivity | eassumption]
    | right; right; right; do 2 eexists; (split; [|split]);
        [ | | reflexivity ]; [reflexivity | eassumption] ].
Qed.

(** What a call leaves behind, for any fuel and any outcome: the
    conversation grew by rounds, and each request posted carried the
    conversation as it stood when it was posted. *)
Lemma get_completion_trace fuel (w : World Net) :
  ∃ added reqs,
    messages (get_completion fuel w).2 = messages w ++ added
    ∧ sent (get_completion fuel w).2 = sent w ++ reqs
    ∧ rounds json_loads self added
    ∧ Forall (λ r, ∃ pre, pre `prefix_of` added
                          ∧ r = build_request (messages w ++ pre)) reqs
    ∧ match fuel with
      | O => reqs = []
      | S _ => ∃ reqs', reqs = build_request (messages w) :: reqs'
      end.
Proof.
  revert w. induction fuel as [|fuel IH]; intros w.
  { exists [], []. simpl. rewrite !app_nil_r. split_and!; try done; constructor. }
  assert (Forall (λ r, ∃ pre, pre `prefix_of` ([] : list Message)
                              ∧ r = build_request (messages w ++ pre))
            [build_request (messages w)]) as Hfirst.
  { repeat constructor. exists []. by rewrite app_nil_r. }
  destruct (get_completion_step fuel w)
    as (net' & _ & [[e ->]|[(m & _ & ->)|[(ai & e & Hai & Hraise & ->)
                    |(ai & tms & Hai & Htms & ->)]]]).
  - exists [], [build_request (messages w)]. simpl. rewrite app_nil_r.
    split_and!; [done..|constructor|done|by exists []].
  - exists [], [build_request (messages w)]. simpl. rewrite app_nil_r.
    split_and!; [done..|constructor|done|by exists []].
  - exists [ai], [build_request (messages w)]. simpl.
    split_and!; [done..|by eapply rounds_failed| |by exists []].
    repeat constructor. exists []. split; [apply prefix_nil|by rewrite app_nil_r].
  - destruct (IH (grown (grown (posted w net') [ai]) tms))
      as (added & reqs & Hm & Hs & Hr & Hreqs & _).
    destruct (process_tool_calls_iter json_loads self _ _ Htms)
      as (todo & Hiter & Hrep).
    exists (ai :: tms ++ added), (build_request (messages w) :: reqs).
    rewrite Hm, Hs. simpl. rewrite <- !app_assoc. simpl.
    split_and!; [done..|by econstructor| |by exists reqs].
    constructor.
    + exists []. split; [apply prefix_nil|by rewrite app_nil_r].
    + eapply Forall_impl; [exact Hreqs|]. simpl.
      intros r (pre & Hpre & ->). exists (ai :: tms ++ pre). split.
      * by apply prefix_cons, prefix_app.
      * by rewrite <- !app_assoc.
Qed.

(** A 200 answer without choices: the entry is missing, [null], an empty
    list or anything else that counts as false. The call raises the
    [ValueError] of line 112, having posted one request and left the
    conversation alone. *)
Theorem no_choice_error fuel (w : World Net) response net' data :
  post (build_request (messages w)) (net w) = (Ok response, net') →
  status_code response = 200 →
  json response = Ok (Dict data) →
  truthy (default (List []) (dict_lookup (lit "choices") data)) = false →
  get_completion (S fuel) w
  = (Raised (ValueError (lit "No Choice has been present in the response")),
     posted w net')
  ∧ messages (posted w net') = messages w
  ∧ sent (posted w net') = sent w ++ [build_request (messages w)].
Proof.
  intros Hp Hs Hj Hc. split; [|done].
  cbn [get_completion]. unfold mbind, prog_bind, read_messages, requests_post.
  cbn beta iota. rewrite Hp, Hs, Hj. cbn [Z.eqb Pos.eqb lift get].
  by rewrite Hc.
Qed.

Lemma first_choice_intro response a a0 a1 a2 a3 :
  json response = Ok a →
  get a "choices" (List []) = Ok a0 →
  truthy a0 = true →
  getitem0 a0 = Ok a1 →
  get a1 "message" (Dict []) = Ok a2 →
  get a2 "content" VNone = Ok a3 →
  ∃ choice message_data, first_choice response choice message_data.
Proof.
  intros Hj Hc Ht H0 Hm Hcontent.
  destruct a as [|?|data]; try discriminate. simpl in Hc. injection Hc as <-.
  destruct a1 as [|?|choice]; try discriminate. simpl in Hm. injection Hm as <-.
  destruct (default (Dict []) (dict_lookup (lit "message") choice))
    as [|?|message_data] eqn:Hmd; try discriminate.
  exists choice, message_data, data.
  destruct (dict_lookup (lit "choices") data) as [choices|] eqn:Hl;
    [|discriminate].
  simpl in H0, Ht.
  destruct choices as [[| | | |[|c s]]|[|x rest]|items]; simplify_eq/=.
  by exists rest.
Qed.

(** A 200 answer that is not of the expected form (the body does not
    decode, is not an object, has no choices, its first choice or the
    message of that choice is not an object) makes the call raise, after one
    request and with the conversation as it was: nothing is returned and no
    further round is started. *)
Theorem malformed_answer_raises fuel (w : World Net) response net' :
  post (build_request (messages w)) (net w) = (Ok response, net') →
  status_code response = 200 →
  (∀ choice message_data, ¬ first_choice response choice message_data) →
  ∃ e, get_completion (S fuel) w = (Raised e, posted w net')
       ∧ messages (posted w net') = messages w
       ∧ sent (posted w net') = sent w ++ [build_request (messages w)].
Proof.
  intros Hp Hs Hnot.
  cbn [get_completion]. unfold mbind, prog_bind, read_messages, requests_post.
  cbn beta iota. rewrite Hp, Hs. cbn [Z.eqb Pos.eqb].
  change {| messages := messages w; net := net';
            sent := sent w ++ [build_request (messages w)] |}
    with (posted w net').
  unfold lift, raise, append, extend, mret, prog_ret.
  repeat (cbn beta iota zeta;
          match goal with
          | |- context [match ?r with Ok _ => _ | Raise _ => _ end] =>
              destruct r eqn:?
          | |- context [if ?b then _ else _] => destruct b eqn:?
          end).
  all: cbn beta iota zeta.
  all: first
    [ by eexists
    | exfalso;
      match goal with
      | H1 : json _ = Ok ?a, H2 : get ?a "choices" _ = Ok ?a0,
        H3 : truthy ?a0 = true, H4 : getitem0 ?a0 = Ok ?a1,
        H5 : get ?a1 "message" _ = Ok ?a2, H6 : get ?a2 "content" _ = Ok _ |- _ =>
          destruct (first_choice_intro _ _ _ _ _ _ H1 H2 H3 H4 H5 H6)
            as (choice & message_data & Hfc);
          exact (Hnot _ _ Hfc)
      end ].
Qed.

(** An answer that asks for tool calls but lists none: the AI message is
    appended, no tool message follows, and the client asks again with that
    conversation. *)
Theorem empty_tool_calls_round fuel (w : World Net) response net' choice message_data :
  post (build_request (messages w)) (net w) = (Ok response, net') →
  status_code response = 200 →
  first_choice response choice message_data →
  field "finish_reason" choice = VStr (lit "tool_calls") →
  field "tool_calls" message_data = List [] →
  ∃ w',
    get_completion (S fuel) w = get_completion fuel w'
    ∧ messages w' = messages w ++ [ai_message message_data]
    ∧ sent w' = sent w ++ [build_request (messages w)]
    ∧ net w' = net'.
Proof.
  intros Hp Hs Hfc Hfr Htc.
  rewrite (get_completion_200 _ _ _ _ _ _ Hp Hs Hfc), (eq_str_true _ _ Hfr), Htc.
  simpl. eexists. split; [reflexivity|]. simpl. by rewrite app_nil_r.
Qed.

(** Every request a call posts has the two headers, the credential as the
    client holds it, and a body made of the client's schema list and of the
    conversation as it stood at that moment, which starts with the
    conversation the call was given; the first request carries exactly
    that conversation. *)
Theorem requests_carry_conversation fuel (w : World Net) :
  ∃ reqs,
    sent (get_completion fuel w).2 = sent w ++ reqs
    ∧ Forall (λ r,
        headers r = [(lit "api-key", __api_key self);
                     (lit "Content-Type", lit "application/json")]
        ∧ ∃ pre,
            (messages w ++ pre) `prefix_of` messages (get_completion fuel w).2
            ∧ json_data r
              = Dict [(lit "messages", List (to_dict <$> (messages w ++ pre)));
                      (lit "tools", List (__tools_schemas self))]) reqs
    ∧ match fuel with
      | O => reqs = []
      | S _ => ∃ reqs', reqs = build_request (messages w) :: reqs'
      end.
Proof.
  destruct (get_completion_trace fuel w) as (added & reqs & Hm & Hs & _ & Hreqs & Hhd).
  exists reqs. split_and!; [done| |done].
  eapply Forall_impl; [exact Hreqs|]. simpl.
  intros r (pre & Hpre & ->). split; [done|].
  exists pre. split; [|done]. rewrite Hm. by apply prefix_app.
Qed.

(** What a call appends to the conversation comes in rounds: an AI message,
    then one reply per tool call of that message, in the order of the
    calls; a round lacks its replies only when it is the last one and
    processing its tool calls raised. *)
Theorem conversation_in_rounds fuel (w : World Net) :
  ∃ added,
    messages (get_completion fuel w).2 = messages w ++ added
    ∧ rounds json_loads self added.
Proof.
  destruct (get_completion_trace fuel w) as (added & reqs & Hm & _ & Hr & _).
  by exists added.
Qed.

(** The messages a call appends are AI and TOOL messages only, and every
    TOOL message among them answers a tool call of an AI message appended
    before it: its [tool_call_id] is the ["id"] of one of that message's
    tool calls. *)
Theorem tool_messages_correlated fuel (w : World Net) :
  ∃ added,
    messages (get_completion fuel w).2 = messages w ++ added
    ∧ Forall (λ m, role m = AI ∨ role m = TOOL) added
    ∧ ∀ j m, added !! j = Some m → role m = TOOL →
        ∃ i ai todo tool_call,
          (i < j)%nat ∧ added !! i = Some ai ∧ role ai = AI
          ∧ iter (tool_calls ai) = Ok todo ∧ tool_call ∈ todo
          ∧ getitem tool_call "id" = Ok (tool_call_id m).
Proof.
  destruct (get_completion_trace fuel w) as (added & reqs & Hm & _ & Hr & _).
  exists added. split_and!; [done| |].
  - by eapply rounds_roles.
  - intros j m. by eapply rounds_correlated.
Qed.

(** [k] rounds of tool use followed by an answer that asks for none: the
    call returns the AI message of that answer, having posted [k + 1]
    requests; cut off after [k] rounds or fewer it has returned nothing
    yet. *)
Theorem tool_rounds_then_final k (w w1 : World Net) m w2 :
  nsteps (tool_round json_loads to_dict post self) k w w1 →
  final_round to_dict post self w1 m w2 →
  (∀ fuel, (k < fuel)%nat → get_completion fuel w = (Returned m, w2))
  ∧ (∀ fuel, (fuel ≤ k)%nat → (get_completion fuel w).1 = OutOfFuel)
  ∧ length (sent w2) = (length (sent w) + k + 1)%nat.
Proof.
  intros Hsteps (response & net' & choice & md & Hp & Hs & Hfc & Hfr & -> & ->).
  induction Hsteps as [w1|k w w' w1 Hround _ IH].
  - split_and!.
    + intros [|fuel] Hlt; [lia|].
      by rewrite (get_completion_200 _ _ _ _ _ _ Hp Hs Hfc), (eq_str_false _ _ Hfr).
    + intros fuel Hle. by replace fuel with 0%nat by lia.
    + simpl. rewrite length_app. simpl. lia.
  - destruct (IH Hp) as (Hret & Hcut & Hlen).
    destruct Hround as (r & n & c & d & tms & Hp' & Hs' & Hfc' & Hfr' & Htms & ->).
    split_and!.
    + intros [|fuel] Hlt; [lia|].
      rewrite (get_completion_200 _ _ _ _ _ _ Hp' Hs' Hfc'), (eq_str_true _ _ Hfr'), Htms.
      apply Hret. lia.
    + intros [|fuel] Hle; [done|].
      rewrite (get_completion_200 _ _ _ _ _ _ Hp' Hs' Hfc'), (eq_str_true _ _ Hfr'), Htms.
      apply Hcut. lia.
    + rewrite Hlen. simpl. rewrite length_app. simpl. lia.
Qed.

End Loop.

(* ================================================================== *)
(** ** The statements at work on the concrete collaborators *)

Lemma process_tool_calls_ok_witness :
  ∃ tool_messages,
    _process_tool_calls Demo.json_loads Demo.client (List Demo.batch)
      = Ok tool_messages
    ∧ length tool_messages = length Demo.batch
    ∧ ∀ i c, Demo.batch_calls !! i = Some c →
        ∃ s, answers Demo.json_loads Demo.client c s
             ∧ tool_messages !! i = Some (tool_message c s).
Proof.
  apply (process_tool_calls_ok Demo.json_loads Demo.client
           Demo.batch Demo.batch_calls).
  - repeat constructor; (eexists; split_and!; reflexivity).
  - repeat constructor.
    + exists (lit "3"). eexists. split; vm_compute; reflexivity.
    + exists (lit "Unknown function: nope"). eexists.
      split; vm_compute; reflexivity.
Defined.

Lemma get_completion_final_witness :
  ∃ m w',
    Demo.run 1 [Demo.stop_answer] = (Returned m, w')
    ∧ role m = AI
    ∧ content m = VStr (lit "hello")
    ∧ tool_calls m = VNone
    ∧ messages w' = [Demo.user_says "add 1 and 2"]
    ∧ sent w' = [build_request Demo.to_dict Demo.client [Demo.user_says "add 1 and 2"]]
    ∧ net w' = [].
Proof.
  apply (get_completion_final Demo.json_loads Demo.to_dict (list Response)
           Demo.post Demo.client 0 (Demo.world [Demo.stop_answer])
           Demo.stop_answer []
           [(lit "finish_reason", VStr (lit "stop"));
            (lit "message", Dict [(lit "content", VStr (lit "hello"))])]
           [(lit "content", VStr (lit "hello"))]).
  - reflexivity.
  - reflexivity.
  - do 2 eexists. split_and!; reflexivity.
  - vm_compute. discriminate.
Defined.

Lemma get_completion_http_error_witness :
  ∃ w',
    Demo.run 1 [Demo.not_found]
      = (Raised (Exception (lit "HTTP " ++ str_int 404 ++ lit ": "
                              ++ lit "Not Found")), w')
    ∧ messages w' = [Demo.user_says "add 1 and 2"].
Proof.
  apply (get_completion_http_error Demo.json_loads Demo.to_dict (list Response)
           Demo.post Demo.client 0 (Demo.world [Demo.not_found])
           Demo.not_found []).
  - reflexivity.
  - vm_compute. discriminate.
Defined.

Lemma demo_client_honours_contract : honours_contract Demo.client.
Proof.
  intros name tool arguments Ht. unfold Demo.client, tools_by_name in Ht.
  simpl in Ht. apply lookup_insert_Some in Ht as [[_ <-]|[_ Ht]].
  - simpl. destruct arguments; eauto.
  - by rewrite lookup_empty in Ht.
Qed.

Lemma malformed_arguments_fatal_witness :
  ∃ e,
    _process_tool_calls Demo.json_loads Demo.client
      (List (Demo.batch ++ [Demo.bad_call])) = Raise e
    ∧ e = JSONDecodeError
    ∧ (Demo.run 1 [Demo.bad_answer]).1 = Raised e.
Proof.
  destruct (malformed_arguments_fatal Demo.json_loads Demo.to_dict (list Response)
              Demo.post Demo.client 0 (Demo.world [Demo.bad_answer])
              Demo.bad_answer []
              [(lit "finish_reason", VStr (lit "tool_calls"));
               (lit "message",
                Dict [(lit "tool_calls", List (Demo.batch ++ [Demo.bad_call]))])]
              [(lit "tool_calls", List (Demo.batch ++ [Demo.bad_call]))]
              (Demo.batch ++ [Demo.bad_call]) Demo.bad_call)
    as (e & Hraise & Hdecode & Hfatal).
  - simpl. do 2 right. left.
  - exists {| call_id := VStr (lit "c3"); call_name := lit "sum";
              call_arguments := lit "[1, " |}.
    split; [eexists; split_and!; reflexivity | reflexivity].
  - exists e. split_and!.
    + exact Hraise.
    + apply Hdecode; [|exact demo_client_honours_contract].
      repeat constructor; (eexists {| call_id := _ |}; eexists;
                           split_and!; reflexivity).
    + apply Hfatal.
      * reflexivity.
      * reflexivity.
      * do 2 eexists. split_and!; reflexivity.
      * reflexivity.
      * reflexivity.
Defined.

(** Without that contract the exception can be another one: a tool that
    raises ahead of the undecodable request decides it. *)
Example careless_batch :
  _process_tool_calls Demo.json_loads Demo.careless_client
    (List [Demo.call "c1" "boom" "{}"; Demo.bad_call])
  = Raise (Foreign (lit "RuntimeError")).
Proof. vm_compute. reflexivity. Qed.

Lemma get_completion_appends_witness :
  ∃ later,
    messages (Demo.run 2 [Demo.tools_answer; Demo.stop_answer]).2 =
      [Demo.user_says "add 1 and 2"]
      ++ [ai_message [(lit "content", VNone); (lit "tool_calls", List Demo.batch)]]
      ++ zip_with tool_message Demo.batch_calls
           [lit "3"; lit "Unknown function: nope"]
      ++ later.
Proof.
  destruct (get_completion_appends Demo.json_loads Demo.to_dict (list Response)
              Demo.post Demo.client 1
              (Demo.world [Demo.tools_answer; Demo.stop_answer])) as [_ Hround].
  destruct (Hround Demo.tools_answer [Demo.stop_answer]
              [(lit "finish_reason", VStr (lit "tool_calls"));
               (lit "message",
                Dict [(lit "content", VNone); (lit "tool_calls", List Demo.batch)])]
              [(lit "content", VNone); (lit "tool_calls", List Demo.batch)]
              (zip_with tool_message Demo.batch_calls
                 [lit "3"; lit "Unknown function: nope"]))
    as [Hlater _].
  - reflexivity.
  - reflexivity.
  - do 2 eexists. split_and!; reflexivity.
  - reflexivity.
  - vm_compute. reflexivity.
  - exact Hlater.
Defined.

Lemma request_url_witness :
  __endpoint Demo.client = lit "https://host" ++ lit "/openai/deployments/"
                             ++ lit "gpt" ++ lit "/chat/completions"
  ∧ ∃ reqs,
      sent (Demo.run 2 [Demo.tools_answer; Demo.stop_answer]).2 = [] ++ reqs
      ∧ Forall (λ r, url r = lit "https://host" ++ lit "/openai/deployments/"
                               ++ lit "gpt" ++ lit "/chat/completions") reqs.
Proof.
  apply (request_url Demo.json_loads Demo.to_dict (list Response) Demo.post
           Demo.client (lit "https://host") (lit "gpt") (Some (lit "secret"))
           (Some [Demo.sum_tool]) 2
           (Demo.world [Demo.tools_answer; Demo.stop_answer])).
  vm_compute. reflexivity.
Defined.

Lemma tool_calls_missing_witness :
  ∃ w',
    Demo.run 1 [Demo.no_tools_answer] = (Raised TypeError, w')
    ∧ messages w' =
        [Demo.user_says "add 1 and 2"]
        ++ [ai_message [(lit "content", VStr (lit "wait"));
                        (lit "tool_calls", VNone)]].
Proof.
  apply (tool_calls_missing Demo.json_loads Demo.to_dict (list Response)
           Demo.post Demo.client 0 (Demo.world [Demo.no_tools_answer])
           Demo.no_tools_answer []
           [(lit "finish_reason", VStr (lit "tool_calls"));
            (lit "message",
             Dict [(lit "content", VStr (lit "wait")); (lit "tool_calls", VNone)])]
           [(lit "content", VStr (lit "wait")); (lit "tool_calls", VNone)]).
  - reflexivity.
  - reflexivity.
  - do 2 eexists. split_and!; reflexivity.
  - reflexivity.
  - reflexivity.
Defined.

(** A two-round exchange: tool calls answered, then the final message; two
    requests in all, and the conversation ends up with the AI message and
    the two TOOL messages after the user's. *)
Example two_rounds :
  let '(result, w) := Demo.run 5 [Demo.tools_answer; Demo.stop_answer] in
  result = Returned (ai_message [(lit "content", VStr (lit "hello"))])
  ∧ length (sent w) = 2%nat
  ∧ (role <$> messages w) = [USER; AI; TOOL; TOOL]
  ∧ (tool_call_id <$> drop 2 (messages w)) = [VStr (lit "c1"); VStr (lit "c2")].
Proof. vm_compute. split_and!; reflexivity. Qed.

(* ================================================================== *)
(** ** The further statements at work on the concrete collaborators *)

Lemma registry_last_wins_witness :
  __tools_dict Demo.crowded_client !! BaseTool.name Demo.sum_v2 = Some Demo.sum_v2
  ∧ __tools_dict Demo.crowded_client !! lit "nope" = None.
Proof.
  destruct (registry_last_wins (lit "https://host") (lit "gpt")
              (Some (lit "secret")) Demo.crowded_tools Demo.crowded_client)
    as [Hlast Hnone].
  - vm_compute. reflexivity.
  - split.
    + apply (Hlast [Demo.sum_tool] Demo.sum_v2 [Demo.faulty_tool]).
      * reflexivity.
      * repeat constructor. intros H. cbv in H. discriminate H.
    + apply Hnone. repeat constructor; intros H; cbv in H; discriminate H.
Defined.

Lemma schemas_and_registry_witness :
  __tools_schemas Demo.crowded_client = BaseTool.schema <$> Demo.crowded_tools
  ∧ dom (__tools_dict Demo.crowded_client)
    = list_to_set (BaseTool.name <$> Demo.crowded_tools)
  ∧ (size (__tools_dict Demo.crowded_client) ≤ length Demo.crowded_tools)%nat
  ∧ (size (__tools_dict Demo.crowded_client) = length Demo.crowded_tools
     ↔ NoDup (BaseTool.name <$> Demo.crowded_tools)).
Proof.
  apply (schemas_and_registry (lit "https://host") (lit "gpt")
           (Some (lit "secret")) Demo.crowded_tools Demo.crowded_client).
  vm_compute. reflexivity.
Defined.

Lemma process_tool_calls_replies_witness :
  ∃ todo, iter (List Demo.batch) = Ok todo
          ∧ length (zip_with tool_message Demo.batch_calls
                      [lit "3"; lit "Unknown function: nope"]) = length todo
          ∧ Forall2 (replies Demo.json_loads Demo.client) todo
              (zip_with tool_message Demo.batch_calls
                 [lit "3"; lit "Unknown function: nope"]).
Proof.
  apply (proj1 (process_tool_calls_replies Demo.json_loads Demo.client
                  (List Demo.batch)
                  (zip_with tool_message Demo.batch_calls
                     [lit "3"; lit "Unknown function: nope"]))).
  vm_compute. reflexivity.
Defined.

Lemma batch_fails_iff_undecodable_witness :
  ((∃ ms, _process_tool_calls Demo.json_loads Demo.client
            (List (Demo.batch ++ [Demo.bad_call])) = Ok ms)
   ∨ _process_tool_calls Demo.json_loads Demo.client
       (List (Demo.batch ++ [Demo.bad_call])) = Raise JSONDecodeError)
  ∧ (_process_tool_calls Demo.json_loads Demo.client
       (List (Demo.batch ++ [Demo.bad_call])) = Raise JSONDecodeError
     ↔ ∃ bad, bad ∈ Demo.batch ++ [Demo.bad_call]
              ∧ malformed Demo.json_loads bad).
Proof.
  apply (batch_fails_iff_undecodable Demo.json_loads Demo.client
           (Demo.batch ++ [Demo.bad_call])).
  - repeat constructor; (eexists {| call_id := _ |}; eexists;
                         split_and!; reflexivity).
  - exact demo_client_honours_contract.
Defined.

Lemma no_choice_error_witness :
  Demo.run 1 [Demo.empty_answer]
  = (Raised (ValueError (lit "No Choice has been present in the response")),
     posted Demo.to_dict Demo.client (Demo.world [Demo.empty_answer]) [])
  ∧ messages (posted Demo.to_dict Demo.client (Demo.world [Demo.empty_answer]) [])
    = [Demo.user_says "add 1 and 2"]
  ∧ sent (posted Demo.to_dict Demo.client (Demo.world [Demo.empty_answer]) [])
    = [] ++ [build_request Demo.to_dict Demo.client [Demo.user_says "add 1 and 2"]].
Proof.
  apply (no_choice_error Demo.json_loads Demo.to_dict (list Response) Demo.post
           Demo.client 0 (Demo.world [Demo.empty_answer]) Demo.empty_answer []
           [(lit "choices", List [])]).
  - reflexivity.
  - reflexivity.
  - reflexivity.
  - reflexivity.
Defined.

Lemma malformed_answer_raises_witness :
  ∃ e,
    Demo.run 1 [Demo.null_message_answer]
    = (Raised e, posted Demo.to_dict Demo.client
                   (Demo.world [Demo.null_message_answer]) [])
    ∧ messages (posted Demo.to_dict Demo.client
                  (Demo.world [Demo.null_message_answer]) [])
      = [Demo.user_says "add 1 and 2"]
    ∧ sent (posted Demo.to_dict Demo.client
              (Demo.world [Demo.null_message_answer]) [])
      = [] ++ [build_request Demo.to_dict Demo.client [Demo.user_says "add 1 and 2"]].
Proof.
  apply (malformed_answer_raises Demo.json_loads Demo.to_dict (list Response)
           Demo.post Demo.client 0 (Demo.world [Demo.null_message_answer])
           Demo.null_message_answer []).
  - reflexivity.
  - reflexivity.
  - intros choice message_data (data & rest & Hj & Hc & Hm).
    injection Hj as <-. vm_compute in Hc. injection Hc as <- <-.
    vm_compute in Hm. discriminate Hm.
Defined.

Lemma empty_tool_calls_round_witness :
  ∃ w',
    Demo.run 2 [Demo.empty_tools_answer; Demo.stop_answer]
    = get_completion Demo.json_loads Demo.to_dict (list Response) Demo.post
        Demo.client 1 w'
    ∧ messages w' = [Demo.user_says "add 1 and 2"]
                    ++ [ai_message [(lit "tool_calls", List [])]]
    ∧ sent w' = [] ++ [build_request Demo.to_dict Demo.client
                         [Demo.user_says "add 1 and 2"]]
    ∧ net w' = [Demo.stop_answer].
Proof.
  apply (empty_tool_calls_round Demo.json_loads Demo.to_dict (list Response)
           Demo.post Demo.client 1
           (Demo.world [Demo.empty_tools_answer; Demo.stop_answer])
           Demo.empty_tools_answer [Demo.stop_answer]
           [(lit "finish_reason", VStr (lit "tool_calls"));
            (lit "message", Dict [(lit "tool_calls", List [])])]
           [(lit "tool_calls", List [])]).
  - reflexivity.
  - reflexivity.
  - do 2 eexists. split_and!; reflexivity.
  - reflexivity.
  - reflexivity.
Defined.

Lemma tool_rounds_then_final_witness :
  (Demo.run 2 [Demo.tools_answer; Demo.stop_answer]).1
  = Returned (ai_message [(lit "content", VStr (lit "hello"))])
  ∧ (Demo.run 1 [Demo.tools_answer; Demo.stop_answer]).1 = OutOfFuel.
Proof.
  edestruct (tool_rounds_then_final Demo.json_loads Demo.to_dict (list Response)
               Demo.post Demo.client 1
               (Demo.world [Demo.tools_answer; Demo.stop_answer]))
    as (Hret & Hcut & _).
  - eapply nsteps_l; [|apply nsteps_O].
    exists Demo.tools_answer, [Demo.stop_answer],
      [(lit "finish_reason", VStr (lit "tool_calls"));
       (lit "message",
        Dict [(lit "content", VNone); (lit "tool_calls", List Demo.batch)])],
      [(lit "content", VNone); (lit "tool_calls", List Demo.batch)],
      (zip_with tool_message Demo.batch_calls
         [lit "3"; lit "Unknown function: nope"]).
    split_and!; [reflexivity | reflexivity
                | do 2 eexists; split_and!; reflexivity
                | reflexivity | vm_compute; reflexivity | reflexivity].
  - exists Demo.stop_answer, [],
      [(lit "finish_reason", VStr (lit "stop"));
       (lit "message", Dict [(lit "content", VStr (lit "hello"))])],
      [(lit "content", VStr (lit "hello"))].
    split_and!; [reflexivity | reflexivity
                | do 2 eexists; split_and!; reflexivity
                | vm_compute; discriminate | reflexivity | reflexivity].
  - split.
    + unfold Demo.run. rewrite (Hret 2%nat) by lia. reflexivity.
    + apply Hcut. lia.
Defined.

(** An AI message whose tool calls go through cannot stand alone as a
    round: its replies have to follow it. *)
Example lone_ai_needs_failure :
  ¬ rounds Demo.json_loads Demo.client
      [ai_message [(lit "tool_calls", List Demo.batch)]].
Proof.
  intros H. inversion H as [|ai e Hai Hraise|ai todo tms rest Hai Hiter Hrep Hrest Heq].
  - vm_compute in Hraise. discriminate Hraise.
  - destruct tms as [|m tms]; [|by destruct tms].
    vm_compute in Hiter. injection Hiter as <-. inversion Hrep.
Qed.
